(** * UniFi PoE webhook server: the per-port operation coordinator

    A shallow embedding of [UniFiPortController] from
    [unifi_webhook_server.py] and the properties of its rate limiter, device
    cooldown gate, deferred queue and status inference, followed by the
    views of the HTTP front end ([authenticate_request], [before_request],
    [power_on], [power_off], [power_cycle], [power_status]).

    Modelling conventions.
    - A Python [float] number of seconds is a rational ([Q]); the clock values
      the code subtracts are of the same magnitude, so the subtraction is
      exact and rounding is not modelled.  [int(x)] is truncation toward zero.
    - A Python [dict] used as a map ([last_operation_time],
      [last_unifi_operation]) is a [gmap]; a [dict] literal returned as a
      result is an association list in the order the source writes it.
    - The controller object is a record [state], threaded through a state
      monad.  What the environment decides (the values [time.time()] returns,
      the text of [datetime.now().isoformat()], the outcome of each HTTP call)
      is read from a [World], one value per call, in call order.
    - What the code does to the outside (HTTP requests, [time.sleep], log
      lines) is appended to [trace].
    - The controller takes no lock, and the worker thread runs beside the
      request handlers.  A thread is a sequence of calls on the shared
      controller ([thread_step] for a handler, [worker_call] for the
      worker), and [step] lets any thread make its next call. *)

From Stdlib Require Import ZArith QArith Qminmax Lqa String Ascii List.
From stdpp Require Import base option list gmap strings pretty.

Local Open Scope string_scope.

(** ** Python values and dictionaries *)

Inductive pyval : Type :=
  | VBool (b : bool)
  | VInt (z : Z)
  | VFloat (q : Q)
  | VStr (s : string).

(** A dict literal, fields in source order. *)
Definition dict : Type := list (string * pyval).

Fixpoint dict_get (k : string) (d : dict) : option pyval :=
  match d with
  | [] => None
  | (k', v) :: d' => if String.eqb k k' then Some v else dict_get k d'
  end.

(** Python truthiness of a value, as [if result["success"]:] uses it. *)
Definition truthy (v : pyval) : bool :=
  match v with
  | VBool b => b
  | VInt z => negb (Z.eqb z 0)
  | VFloat q => negb (Qeq_bool q 0)
  | VStr s => negb (String.eqb s "")
  end.

(** [result["success"]] followed by a truth test. *)
Definition subscript_true (d : dict) (k : string) : bool :=
  match dict_get k d with
  | Some v => truthy v
  | None => false
  end.

(** [int(x)] on a float: truncation toward zero. *)
Definition py_int (x : Q) : Z := Z.quot (Qnum x) (Z.pos (Qden x)).

(** [str.upper()] on ASCII text. *)
Definition ascii_upper (c : ascii) : ascii :=
  let n := nat_of_ascii c in
  if (97 <=? n)%nat && (n <=? 122)%nat then ascii_of_nat (n - 32) else c.

Fixpoint upper (s : string) : string :=
  match s with
  | EmptyString => EmptyString
  | String c s' => String (ascii_upper c) (upper s')
  end.

(** ** The environment *)

(** Outcome of one call of [requests.Session.post] / [.get]: it raises (the
    text is [str(e)]) or returns a response with a status code. *)
Inductive http_outcome : Type :=
  | Raises (e : string)
  | Response (status_code : Z).

Record World : Type := mkWorld {
  (* [UniFiConfig] properties *)
  base_url : string;
  api_key : string;
  site_id : string;
  device_id : string;
  (* the n-th value returned by [time.time()] *)
  clock : nat -> Q;
  (* the n-th value of [datetime.now().isoformat()] *)
  isoformat : nat -> string;
  (* the outcome of the n-th HTTP call *)
  http : nat -> http_outcome;
}.

(** ** The controller state *)

Inductive loglevel : Type := INFO | WARNING | ERROR.

Inductive event : Type :=
  | EvPost (url : string) (headers : dict) (json : dict)
  | EvGet (url : string) (headers : dict)
  | EvSleep (seconds : Q)
  | EvLog (level : loglevel) (msg : string).

(** An item of [operation_queue]: the dict [{'port', 'action', 'delay'}]. *)
Record job : Type := mkJob {
  job_port : Z;
  job_action : string;
  job_delay : Q;
}.

Record state : Type := mkState {
  last_operation_time : gmap string Q;
  (* [Queue()]: items in FIFO order, [None] is the shutdown signal *)
  operation_queue : list (option job);
  unfinished_tasks : nat;
  last_unifi_operation : gmap Z Q;
  (* how many values of each kind the environment has handed out *)
  time_reads : nat;
  datetime_reads : nat;
  http_calls : nat;
  (* effects on the outside, oldest first *)
  trace : list event;
}.

Definition rate_limit_seconds : Q := 30.
Definition unifi_cooldown : Q := 10.

(** The state [__init__] builds (the worker thread it starts is
    [queue_worker] below). *)
Definition init : state :=
  {| last_operation_time := ∅; operation_queue := []; unfinished_tasks := 0;
     last_unifi_operation := ∅; time_reads := 0; datetime_reads := 0;
     http_calls := 0; trace := [] |}.

(** ** A state monad over [state] *)

Definition M (A : Type) : Type := state -> A * state.

Definition ret {A : Type} (a : A) : M A := fun s => (a, s).
Definition bind {A B : Type} (m : M A) (f : A -> M B) : M B :=
  fun s => let '(a, s') := m s in f a s'.

Declare Scope M_scope.
Delimit Scope M_scope with M.
Notation "x ← y ; z" := (bind y (fun x => z))
  (at level 20, y at level 100, z at level 200, only parsing) : M_scope.
Notation "y ;; z" := (bind y (fun _ => z))
  (at level 100, z at level 200, only parsing, right associativity) : M_scope.
Local Open Scope M_scope.

Definition get_state : M state := fun s => (s, s).
Definition modify (f : state -> state) : M unit := fun s => (tt, f s).

Definition set_last_operation_time (k : string) (t : Q) (s : state) : state :=
  {| last_operation_time := <[k := t]> (last_operation_time s);
     operation_queue := operation_queue s;
     unfinished_tasks := unfinished_tasks s;
     last_unifi_operation := last_unifi_operation s;
     time_reads := time_reads s; datetime_reads := datetime_reads s;
     http_calls := http_calls s; trace := trace s |}.

Definition set_last_unifi_operation (p : Z) (t : Q) (s : state) : state :=
  {| last_operation_time := last_operation_time s;
     operation_queue := operation_queue s;
     unfinished_tasks := unfinished_tasks s;
     last_unifi_operation := <[p := t]> (last_unifi_operation s);
     time_reads := time_reads s; datetime_reads := datetime_reads s;
     http_calls := http_calls s; trace := trace s |}.

(** [Queue.put]: append and count the task as unfinished. *)
Definition queue_put (item : option job) (s : state) : state :=
  {| last_operation_time := last_operation_time s;
     operation_queue := operation_queue s ++ [item];
     unfinished_tasks := S (unfinished_tasks s);
     last_unifi_operation := last_unifi_operation s;
     time_reads := time_reads s; datetime_reads := datetime_reads s;
     http_calls := http_calls s; trace := trace s |}.

Definition set_operation_queue (q : list (option job)) (s : state) : state :=
  {| last_operation_time := last_operation_time s;
     operation_queue := q;
     unfinished_tasks := unfinished_tasks s;
     last_unifi_operation := last_unifi_operation s;
     time_reads := time_reads s; datetime_reads := datetime_reads s;
     http_calls := http_calls s; trace := trace s |}.

(** [Queue.task_done].  The call raises when the count is already 0; the
    worker makes it once for each item it took, and the count of a run is
    then at least 1 (the bookkeeping of a run, below). *)
Definition queue_task_done (s : state) : state :=
  {| last_operation_time := last_operation_time s;
     operation_queue := operation_queue s;
     unfinished_tasks := pred (unfinished_tasks s);
     last_unifi_operation := last_unifi_operation s;
     time_reads := time_reads s; datetime_reads := datetime_reads s;
     http_calls := http_calls s; trace := trace s |}.

(** The environment hands out one more value of a kind. *)
Definition tick_time (s : state) : state :=
  {| last_operation_time := last_operation_time s;
     operation_queue := operation_queue s;
     unfinished_tasks := unfinished_tasks s;
     last_unifi_operation := last_unifi_operation s;
     time_reads := S (time_reads s); datetime_reads := datetime_reads s;
     http_calls := http_calls s; trace := trace s |}.

Definition tick_datetime (s : state) : state :=
  {| last_operation_time := last_operation_time s;
     operation_queue := operation_queue s;
     unfinished_tasks := unfinished_tasks s;
     last_unifi_operation := last_unifi_operation s;
     time_reads := time_reads s; datetime_reads := S (datetime_reads s);
     http_calls := http_calls s; trace := trace s |}.

Definition tick_http (s : state) : state :=
  {| last_operation_time := last_operation_time s;
     operation_queue := operation_queue s;
     unfinished_tasks := unfinished_tasks s;
     last_unifi_operation := last_unifi_operation s;
     time_reads := time_reads s; datetime_reads := datetime_reads s;
     http_calls := S (http_calls s); trace := trace s |}.

Definition add_event (e : event) (s : state) : state :=
  {| last_operation_time := last_operation_time s;
     operation_queue := operation_queue s;
     unfinished_tasks := unfinished_tasks s;
     last_unifi_operation := last_unifi_operation s;
     time_reads := time_reads s; datetime_reads := datetime_reads s;
     http_calls := http_calls s; trace := trace s ++ [e] |}.

Definition emit (e : event) : M unit := modify (add_event e).

Section Controller.

Context (W : World).

(** [time.time()] *)
Definition time_time : M Q :=
  fun s => (clock W (time_reads s), tick_time s).

(** [datetime.now().isoformat()] *)
Definition datetime_now_isoformat : M string :=
  fun s => (isoformat W (datetime_reads s), tick_datetime s).

(** The network answers the next HTTP call. *)
Definition http_next : M http_outcome :=
  fun s => (http W (http_calls s), tick_http s).

(** [_make_request]: [inl] is the exception raised, [inr] the status code
    of the response. *)
Definition _make_request (method endpoint : string) (data : dict)
  : M (string + Z) :=
  let url := base_url W +:+ "/" +:+ endpoint in
  let headers :=
    [("X-API-KEY", VStr (api_key W));
     ("Content-Type", VStr "application/json");
     ("Accept", VStr "application/json")] in
  if String.eqb (upper method) "POST" then
    emit (EvPost url headers data);;
    r ← http_next;
    ret (match r with Raises e => inl e | Response c => inr c end)
  else if String.eqb (upper method) "GET" then
    emit (EvGet url headers);;
    r ← http_next;
    ret (match r with Raises e => inl e | Response c => inr c end)
  else ret (inl ("Unsupported method: " +:+ method)).

(** [_can_execute_immediately] *)
Definition _can_execute_immediately (port : Z) : M bool :=
  s ← get_state;
  match last_unifi_operation s !! port with
  | None => ret true
  | Some last =>
      now ← time_time;
      let time_since_last := (now - last)%Q in
      ret (if Qlt_le_dec time_since_last unifi_cooldown then false else true)
  end.

(** [_get_operation_key]: the f-string [f"{port}:{operation}"]. *)
Definition _get_operation_key (port : Z) (operation : string) : string :=
  pretty port +:+ ":" +:+ operation.

(** [_is_port_operation_rate_limited] *)
Definition _is_port_operation_rate_limited (port : Z) (operation : string)
  : M bool :=
  let key := _get_operation_key port operation in
  s ← get_state;
  match last_operation_time s !! key with
  | None => ret false
  | Some last =>
      now ← time_time;
      let time_since_last := (now - last)%Q in
      ret (if Qlt_le_dec time_since_last rate_limit_seconds
            then true else false)
  end.

(** [_record_port_operation] *)
Definition _record_port_operation (port : Z) (operation : string) : M unit :=
  let key := _get_operation_key port operation in
  now ← time_time;
  modify (set_last_operation_time key now).

(** [_get_rate_limit_response] *)
Definition _get_rate_limit_response (port : Z) (action : string) : M dict :=
  let key := _get_operation_key port action in
  now ← time_time;
  s ← get_state;
  let time_remaining :=
    (rate_limit_seconds - (now - default 0%Q (last_operation_time s !! key)))%Q in
  ts ← datetime_now_isoformat;
  ret [("success", VBool false);
        ("action", VStr action);
        ("port", VInt port);
        ("error", VStr ("Rate limited. Please wait "
                        +:+ pretty (py_int time_remaining)
                        +:+ " seconds before next " +:+ action
                        +:+ " operation"));
        ("rate_limited", VBool true);
        ("retry_after", VInt (py_int time_remaining));
        ("timestamp", VStr ts)].

(** [power_on_port] *)
Definition power_on_port (port : Z) : M dict :=
  _record_port_operation port "power_on";;
  ts ← datetime_now_isoformat;
  ret [("success", VBool true);
        ("action", VStr "power_on");
        ("port", VInt port);
        ("status", VStr "no_action_needed");
        ("message", VStr "Port will power on automatically after power cycle");
        ("timestamp", VStr ts)].

(** [_execute_power_cycle] *)
Definition _execute_power_cycle (port : Z) (action : string) : M dict :=
  let endpoint :=
    "sites/" +:+ site_id W +:+ "/devices/" +:+ device_id W
    +:+ "/interfaces/ports/" +:+ pretty port +:+ "/actions" in
  response ← _make_request "POST" endpoint [("action", VStr "POWER_CYCLE")];
  match response with
  | inr status_code =>
      if Z.eqb status_code 200 then
        ts ← datetime_now_isoformat;
        ret [("success", VBool true);
              ("action", VStr action);
              ("port", VInt port);
              ("status", VStr "cycling");
              ("timestamp", VStr ts)]
      else
        ts ← datetime_now_isoformat;
        ret [("success", VBool false);
              ("action", VStr action);
              ("port", VInt port);
              ("error", VStr ("HTTP " +:+ pretty status_code));
              ("timestamp", VStr ts)]
  | inl e =>
      ts ← datetime_now_isoformat;
      ret [("success", VBool false);
            ("action", VStr action);
            ("port", VInt port);
            ("error", VStr e);
            ("timestamp", VStr ts)]
  end.

(** [power_off_port] *)
Definition power_off_port (port : Z) : M dict :=
  limited ← _is_port_operation_rate_limited port "power_off";
  if limited then _get_rate_limit_response port "power_off"
  else
    _record_port_operation port "power_off";;
    immediate ← _can_execute_immediately port;
    if immediate then
      result ← _execute_power_cycle port "power_off";
      (if subscript_true result "success"
       then now ← time_time; modify (set_last_unifi_operation port now)
       else ret tt);;
      ret result
    else
      now ← time_time;
      s ← get_state;
      let delay :=
        (unifi_cooldown - (now - default 0%Q (last_unifi_operation s !! port)))%Q in
      modify (queue_put (Some {| job_port := port; job_action := "power_off";
                                 job_delay := Qmax 0 delay |}));;
      ts ← datetime_now_isoformat;
      ret [("success", VBool true);
            ("action", VStr "power_off");
            ("port", VInt port);
            ("status", VStr "queued");
            ("queued_delay", VFloat (Qmax 0 delay));
            ("message", VStr ("Operation queued for execution in "
                              +:+ pretty (Z.max 0 (py_int delay))
                              +:+ " seconds"));
            ("timestamp", VStr ts)].

(** [power_cycle_port] *)
Definition power_cycle_port (port : Z) : M dict :=
  limited ← _is_port_operation_rate_limited port "power_cycle";
  if limited then _get_rate_limit_response port "power_cycle"
  else
    _record_port_operation port "power_cycle";;
    immediate ← _can_execute_immediately port;
    if immediate then
      result ← _execute_power_cycle port "power_cycle";
      (if subscript_true result "success"
       then now ← time_time; modify (set_last_unifi_operation port now)
       else ret tt);;
      ret result
    else
      now ← time_time;
      s ← get_state;
      let delay :=
        (unifi_cooldown - (now - default 0%Q (last_unifi_operation s !! port)))%Q in
      modify (queue_put (Some {| job_port := port; job_action := "power_cycle";
                                 job_delay := Qmax 0 delay |}));;
      ts ← datetime_now_isoformat;
      ret [("success", VBool true);
            ("action", VStr "power_cycle");
            ("port", VInt port);
            ("status", VStr "queued");
            ("queued_delay", VFloat (Qmax 0 delay));
            ("message", VStr ("Operation queued for execution in "
                              +:+ pretty (Z.max 0 (py_int delay))
                              +:+ " seconds"));
            ("timestamp", VStr ts)].

(** [get_port_status] *)
Definition get_port_status (port : Z) : M dict :=
  let power_off_key := pretty port +:+ ":power_off" in
  let power_on_key := pretty port +:+ ":power_on" in
  s ← get_state;
  let power_off_time := default 0%Q (last_operation_time s !! power_off_key) in
  let power_on_time := default 0%Q (last_operation_time s !! power_on_key) in
  let status :=
    if Qlt_le_dec power_on_time power_off_time then "stopped" else "running" in
  let status_message := "status: " +:+ status in
  ts ← datetime_now_isoformat;
  ret [("success", VBool true);
        ("port", VInt port);
        ("status", VStr status_message);
        ("method", VStr "operation_tracking");
        ("timestamp", VStr ts)].

(** ** The queue worker *)

(** What one turn of the [while True] loop of [queue_worker] comes to. *)
Inductive worker_signal : Type :=
  | Blocked      (* [operation_queue.get()] waits: the queue is empty *)
  | Shutdown     (* [None] was dequeued: [break] *)
  | Continue.    (* one job was processed, the loop goes on *)

(** [time.sleep(secs)].  The length is first converted to a whole number
    of nanoseconds held in a signed 64-bit count, rounding away from zero,
    and the call raises [OverflowError] when that number does not fit; a
    length that fits and is negative raises [ValueError].  [sleep_min] and
    [sleep_max] are the ends of the range that fits, about 9.2e9 seconds
    either way.  The result is the text of the exception, or [None] when
    the call returns. *)
Definition sleep_max : Q := 9223372036854775807 # 1000000000.
Definition sleep_min : Q := -9223372036854775808 # 1000000000.

Definition time_sleep (secs : Q) : option string :=
  if Qlt_le_dec sleep_max secs then
    Some "timestamp too large to convert to C _PyTime_t"
  else if Qlt_le_dec secs sleep_min then
    Some "timestamp too large to convert to C _PyTime_t"
  else if Qlt_le_dec secs 0 then
    Some "sleep length must be non-negative"
  else None.

(** The body of the [try] for a dequeued job.  An exception of
    [time.sleep] is caught by the [except] clause of the loop: the error is
    logged and the job is marked done. *)
Definition queue_worker_job (operation_data : job) : M unit :=
  let port := job_port operation_data in
  let action := job_action operation_data in
  let delay := job_delay operation_data in
  match time_sleep delay with
  | Some e =>
      emit (EvLog ERROR ("Error in queue worker: " +:+ e));;
      modify queue_task_done
  | None =>
      emit (EvSleep delay);;
      emit (EvLog INFO ("Executing queued " +:+ action
                        +:+ " operation for port " +:+ pretty port));;
      result ← _execute_power_cycle port action;
      (if subscript_true result "success" then
         now ← time_time;
         modify (set_last_unifi_operation port now);;
         emit (EvLog INFO ("Queued " +:+ action +:+ " operation for port "
                           +:+ pretty port +:+ " completed successfully"))
       else
         emit (EvLog WARNING
                 ("Queued " +:+ action +:+ " operation for port "
                  +:+ pretty port +:+ " failed: "
                  +:+ match dict_get "error" result with
                      | Some (VStr e) => e
                      | _ => "Unknown error"
                      end)));;
      modify queue_task_done
  end.

(** One turn of the loop. *)
Definition queue_worker_step : M worker_signal :=
  s ← get_state;
  match operation_queue s with
  | [] => ret Blocked
  | None :: rest => modify (set_operation_queue rest);; ret Shutdown
  | Some operation_data :: rest =>
      modify (set_operation_queue rest);;
      queue_worker_job operation_data;;
      ret Continue
  end.

(** [queue_worker]: the loop, for at most [fuel] turns.  It stops early
    when the queue is empty (the thread then waits in [get]) or on the
    shutdown signal; [Continue] means the fuel ran out. *)
Fixpoint queue_worker (fuel : nat) : M worker_signal :=
  match fuel with
  | O => ret Continue
  | S fuel' =>
      sig ← queue_worker_step;
      match sig with
      | Continue => queue_worker fuel'
      | _ => ret sig
      end
  end.

End Controller.

(** * Notions the statements use *)

(** ** Logical operations *)

(** The three caller-facing operations; each route of the HTTP front end
    calls the controller method of its operation. *)
Inductive operation : Type := PowerOn | PowerOff | PowerCycle.

Definition op_name (op : operation) : string :=
  match op with
  | PowerOn => "power_on"
  | PowerOff => "power_off"
  | PowerCycle => "power_cycle"
  end.

Definition dispatch (W : World) (op : operation) (port : Z) : M dict :=
  match op with
  | PowerOn => power_on_port W port
  | PowerOff => power_off_port W port
  | PowerCycle => power_cycle_port W port
  end.

(** A result that the front end turns into HTTP 429. *)
Definition rejected (r : dict) : Prop :=
  dict_get "success" r = Some (VBool false)
  /\ dict_get "rate_limited" r = Some (VBool true).

(** The timestamp recorded for an operation on a port, 0 when there is none
    (what [dict.get(key, 0)] reads). *)
Definition recorded (s : state) (p : Z) (op : operation) : Q :=
  default 0%Q (last_operation_time s !! _get_operation_key p (op_name op)).

(** ** Operation keys *)

(** No character of the text is a colon. *)
Fixpoint colon_free (s : string) : Prop :=
  match s with
  | EmptyString => True
  | String c s' => c <> ":"%char /\ colon_free s'
  end.

(** ** The device call and its result *)

(** The HTTP request [_execute_power_cycle] sends for a port: the one
    device-level action there is. *)
Definition power_cycle_request (W : World) (port : Z) : event :=
  EvPost
    (base_url W +:+ "/" +:+ "sites/" +:+ site_id W +:+ "/devices/"
     +:+ device_id W +:+ "/interfaces/ports/" +:+ pretty port +:+ "/actions")
    [("X-API-KEY", VStr (api_key W));
     ("Content-Type", VStr "application/json");
     ("Accept", VStr "application/json")]
    [("action", VStr "POWER_CYCLE")].

(** The device call went through: HTTP 200. *)
Definition call_ok (o : http_outcome) : bool :=
  match o with
  | Response c => Z.eqb c 200
  | Raises _ => false
  end.

(** The result dict of [_execute_power_cycle] for an outcome of the call. *)
Definition execute_result (o : http_outcome) (port : Z) (action ts : string)
  : dict :=
  match o with
  | Response c =>
      if Z.eqb c 200 then
        [("success", VBool true); ("action", VStr action); ("port", VInt port);
         ("status", VStr "cycling"); ("timestamp", VStr ts)]
      else
        [("success", VBool false); ("action", VStr action); ("port", VInt port);
         ("error", VStr ("HTTP " +:+ pretty c)); ("timestamp", VStr ts)]
  | Raises e =>
      [("success", VBool false); ("action", VStr action); ("port", VInt port);
       ("error", VStr e); ("timestamp", VStr ts)]
  end.

(** The log line the worker writes once the device call of a job is over. *)
Definition worker_outcome_log (o : http_outcome) (j : job) (ts : string)
  : event :=
  if call_ok o then
    EvLog INFO ("Queued " +:+ job_action j +:+ " operation for port "
                +:+ pretty (job_port j) +:+ " completed successfully")
  else
    EvLog WARNING
      ("Queued " +:+ job_action j +:+ " operation for port "
       +:+ pretty (job_port j) +:+ " failed: "
       +:+ match dict_get "error"
                   (execute_result o (job_port j) (job_action j) ts) with
           | Some (VStr e) => e
           | _ => "Unknown error"
           end).

(** ** The algorithm of power off and power cycle *)

(** Section 4.3 of the specification, steps 3 to 5: what an accepted
    request does, with the label of the logical operation as a parameter. *)
Definition complete_request (W : World) (label : string) (port : Z) : M dict :=
  immediate ← _can_execute_immediately W port;
  if immediate then
    result ← _execute_power_cycle W port label;
    (if subscript_true result "success"
     then now ← time_time W; modify (set_last_unifi_operation port now)
     else ret tt);;
    ret result
  else
    now ← time_time W;
    s ← get_state;
    let delay :=
      (unifi_cooldown - (now - default 0%Q (last_unifi_operation s !! port)))%Q in
    modify (queue_put (Some {| job_port := port; job_action := label;
                               job_delay := Qmax 0 delay |}));;
    ts ← datetime_now_isoformat W;
    ret [("success", VBool true);
         ("action", VStr label);
         ("port", VInt port);
         ("status", VStr "queued");
         ("queued_delay", VFloat (Qmax 0 delay));
         ("message", VStr ("Operation queued for execution in "
                           +:+ pretty (Z.max 0 (py_int delay))
                           +:+ " seconds"));
         ("timestamp", VStr ts)].

(** Section 4.3 of the specification: the algorithm the two operations
    follow.  This definition follows the specification; [power_off_port] and
    [power_cycle_port] above follow the source, and
    [power_off_port_request] / [power_cycle_port_request] compare them. *)
Definition power_request (W : World) (label : string) (port : Z) : M dict :=
  limited ← _is_port_operation_rate_limited W port label;
  if limited then _get_rate_limit_response W port label
  else
    _record_port_operation W port label;;
    complete_request W label port.

(** ** The stages of a request *)

(** The verdict of the rate limiter on a request, and the state once the
    verdict is in (the clock was read if there was a record to compare). *)
Definition limited (W : World) (a : string) (p : Z) (s : state) : bool :=
  fst (_is_port_operation_rate_limited W p a s).

Definition checked (W : World) (a : string) (p : Z) (s : state) : state :=
  snd (_is_port_operation_rate_limited W p a s).

(** The state once an accepted request is recorded. *)
Definition accepted (W : World) (a : string) (p : Z) (s : state) : state :=
  snd (_record_port_operation W p a (checked W a p s)).

(** The verdict of the cooldown gate on an accepted request, and the state
    once that verdict is in. *)
Definition immediate (W : World) (a : string) (p : Z) (s : state) : bool :=
  fst (_can_execute_immediately W p (accepted W a p s)).

Definition gated (W : World) (a : string) (p : Z) (s : state) : state :=
  snd (_can_execute_immediately W p (accepted W a p s)).

(** The delay the deferred branch computes. *)
Definition queued_delay (W : World) (a : string) (p : Z) (s : state) : Q :=
  (unifi_cooldown
   - (clock W (time_reads (gated W a p s))
      - default 0%Q (last_unifi_operation s !! p)))%Q.

(** ** Exchanging the two labels *)

(** The label of the other of the two operations. *)
Definition swap_label (a : string) : string :=
  if String.eqb a "power_off" then "power_cycle"
  else if String.eqb a "power_cycle" then "power_off"
  else a.

Definition swap_job (j : job) : job :=
  {| job_port := job_port j; job_action := swap_label (job_action j);
     job_delay := job_delay j |}.

(** Two queue items that are the same, or the same job under the two
    labels. *)
Definition same_item_up_to_label (i1 i2 : option job) : Prop :=
  i2 = i1 \/ i2 = option_map swap_job i1.

(** Two states that agree once the power_off and power_cycle keys of the
    operation records are exchanged.  Their queues hold the same items, up
    to the label a job carries: the same queue on both sides is one case,
    the queues two such runs leave behind another. *)
Definition relabelled (s1 s2 : state) : Prop :=
  (forall (q : Z) (a : string),
     last_operation_time s1 !! _get_operation_key q a =
     last_operation_time s2 !! _get_operation_key q (swap_label a))
  /\ Forall2 same_item_up_to_label (operation_queue s1) (operation_queue s2)
  /\ unfinished_tasks s2 = unfinished_tasks s1
  /\ last_unifi_operation s2 = last_unifi_operation s1
  /\ time_reads s2 = time_reads s1
  /\ datetime_reads s2 = datetime_reads s1
  /\ http_calls s2 = http_calls s1.

(** Two values that are equal, or two texts that differ in one place where
    one says power_off and the other power_cycle. *)
Definition label_swapped_value (v1 v2 : pyval) : Prop :=
  v1 = v2
  \/ exists pre post : string,
       v1 = VStr (pre +:+ "power_off" +:+ post)
       /\ v2 = VStr (pre +:+ "power_cycle" +:+ post).

(** Two results with the same fields in the same order, equal up to the
    label. *)
Definition label_swapped (r1 r2 : dict) : Prop :=
  Forall2 (fun kv1 kv2 => fst kv1 = fst kv2
                          /\ label_swapped_value (snd kv1) (snd kv2)) r1 r2.

(** ** Two requests at once *)

(** The controller takes no lock.  A request handler runs its method as a
    sequence of calls on the shared controller; between two of them the
    handler of another request may run.  The calls of power_off / power_cycle
    are: the check, then the rate-limit response, or the record followed by
    the rest of the method. *)
Inductive pc : Type :=
  | AtCheck
  | AtRespond
  | AtRecord
  | AtComplete
  | Done (result : dict).

(** The next call of a handler that stands at [c]. *)
Definition thread_step (W : World) (label : string) (port : Z) (c : pc)
  : M pc :=
  match c with
  | AtCheck =>
      limited ← _is_port_operation_rate_limited W port label;
      ret (if limited then AtRespond else AtRecord)
  | AtRespond =>
      r ← _get_rate_limit_response W port label; ret (Done r)
  | AtRecord =>
      _record_port_operation W port label;; ret AtComplete
  | AtComplete =>
      r ← complete_request W label port; ret (Done r)
  | Done r => ret (Done r)
  end.








(** ** The states of a run *)

(** The worker thread runs beside the request handlers, and a handler may
    run between any two calls the worker makes on the controller.  Where
    the worker stands in its loop: *)
Inductive worker_pc : Type :=
  | AtGet                                          (* [operation_queue.get()] *)
  | AtSleep (operation_data : job)                 (* [time.sleep(delay)] *)
  | AtExecute (operation_data : job)               (* [_execute_power_cycle] *)
  | AtOutcome (operation_data : job) (result : dict) (* [if result["success"]] *)
  | AtExcept (e : string)                          (* the [except] clause *)
  | AtTaskDone                                     (* [task_done()] *)
  | Stopped.                                       (* after [break] *)

(** The next call of the worker.  At [AtGet] with an empty queue the
    thread waits: it stays where it is. *)
Definition worker_call (W : World) (c : worker_pc) : M worker_pc :=
  match c with
  | AtGet =>
      s ← get_state;
      match operation_queue s with
      | [] => ret AtGet
      | None :: rest => modify (set_operation_queue rest);; ret Stopped
      | Some operation_data :: rest =>
          modify (set_operation_queue rest);; ret (AtSleep operation_data)
      end
  | AtSleep operation_data =>
      match time_sleep (job_delay operation_data) with
      | Some e => ret (AtExcept e)
      | None =>
          emit (EvSleep (job_delay operation_data));;
          ret (AtExecute operation_data)
      end
  | AtExecute operation_data =>
      let port := job_port operation_data in
      let action := job_action operation_data in
      emit (EvLog INFO ("Executing queued " +:+ action
                        +:+ " operation for port " +:+ pretty port));;
      result ← _execute_power_cycle W port action;
      ret (AtOutcome operation_data result)
  | AtOutcome operation_data result =>
      let port := job_port operation_data in
      let action := job_action operation_data in
      (if subscript_true result "success" then
         now ← time_time W;
         modify (set_last_unifi_operation port now);;
         emit (EvLog INFO ("Queued " +:+ action +:+ " operation for port "
                           +:+ pretty port +:+ " completed successfully"))
       else
         emit (EvLog WARNING
                 ("Queued " +:+ action +:+ " operation for port "
                  +:+ pretty port +:+ " failed: "
                  +:+ match dict_get "error" result with
                      | Some (VStr e) => e
                      | _ => "Unknown error"
                      end)));;
      ret AtTaskDone
  | AtExcept e =>
      emit (EvLog ERROR ("Error in queue worker: " +:+ e));;
      ret AtTaskDone
  | AtTaskDone => modify queue_task_done;; ret AtGet
  | Stopped => ret Stopped
  end.

(** The number of jobs the worker has taken from the queue and not yet
    marked done: one between [get()] and [task_done()], none otherwise. *)
Definition held (c : worker_pc) : nat :=
  match c with
  | AtGet | Stopped => 0
  | _ => 1
  end.

(** A request handler: the controller method it runs (for a port) and
    where it stands in it. *)
Record handler : Type := mkHandler {
  h_op : operation;
  h_port : Z;
  h_pc : pc;
}.

(** The next call of a handler.  [power_on_port] makes one call on the
    controller, [power_off_port] and [power_cycle_port] the calls of
    [thread_step]. *)
Definition handler_call (W : World) (op : operation) (port : Z) (c : pc)
  : M pc :=
  match op with
  | PowerOn =>
      match c with
      | Done r => ret (Done r)
      | _ => r ← power_on_port W port; ret (Done r)
      end
  | _ => thread_step W (op_name op) port c
  end.

(** The running server: the controller, the worker thread and the
    handlers of the requests that have come in. *)
Record system : Type := mkSystem {
  shared : state;
  worker : worker_pc;
  handlers : list handler;
}.

(** After [__init__]: the worker waits for its first item. *)
Definition boot : system :=
  {| shared := init; worker := AtGet; handlers := [] |}.

(** What happens next in the server. *)
Inductive action : Type :=
  | Arrive (op : operation) (port : Z)   (* a request comes in *)
  | HandlerCall (i : nat)                (* the i-th handler makes a call *)
  | WorkerCall                           (* the worker makes a call *)
  | Status (port : Z).                   (* a status query, start to end *)

Definition step (W : World) (a : action) (sys : system) : system :=
  match a with
  | Arrive op port =>
      {| shared := shared sys; worker := worker sys;
         handlers := handlers sys ++ [mkHandler op port AtCheck] |}
  | HandlerCall i =>
      match handlers sys !! i with
      | Some h =>
          let r := handler_call W (h_op h) (h_port h) (h_pc h) (shared sys) in
          {| shared := snd r; worker := worker sys;
             handlers :=
               <[i := mkHandler (h_op h) (h_port h) (fst r)]> (handlers sys) |}
      | None => sys
      end
  | WorkerCall =>
      let r := worker_call W (worker sys) (shared sys) in
      {| shared := snd r; worker := fst r; handlers := handlers sys |}
  | Status port =>
      {| shared := snd (get_port_status W port (shared sys));
         worker := worker sys; handlers := handlers sys |}
  end.

Definition run (W : World) (actions : list action) (sys : system) : system :=
  fold_left (fun sys a => step W a sys) actions sys.

(** The states the server goes through: any number of requests, their
    handlers and the worker taking turns call by call in any order. *)
Inductive reachable (W : World) : system -> Prop :=
  | reach_boot : reachable W boot
  | reach_step (a : action) (sys : system) :
      reachable W sys -> reachable W (step W a sys).

(** A queue item that is a job whose delay is not negative. *)
Definition well_queued (item : option job) : Prop :=
  exists j : job, item = Some j /\ (0 <= job_delay j)%Q.

(** The device requests among the events of a trace, in order. *)
Definition is_post (e : event) : bool :=
  match e with
  | EvPost _ _ _ => true
  | _ => false
  end.

Definition posts (t : list event) : list event := List.filter is_post t.

(** ** Worked inputs *)

(** An environment given by the list of clock values and the list of HTTP
    outcomes it hands out (0 and HTTP 200 once a list is used up). *)
Definition world_of (times : list Q) (outcomes : list http_outcome) : World :=
  {| base_url := "https://unifi/proxy/network/integration/v1";
     api_key := "key"; site_id := "site"; device_id := "device";
     clock := fun n => nth n times 0%Q;
     isoformat := fun n => pretty n;
     http := fun n => nth n outcomes (Response 200) |}.

(** An environment whose clock stands still at [t] and whose device
    answers HTTP 200. *)
Definition steady_world (t : Q) : World :=
  {| base_url := "https://unifi/proxy/network/integration/v1";
     api_key := "key"; site_id := "site"; device_id := "device";
     clock := fun _ => t;
     isoformat := fun n => pretty n;
     http := fun _ => Response 200 |}.

(** A state in which power_off on port 3 was accepted at time 100. *)
Definition off_recorded : state :=
  set_last_operation_time "3:power_off" 100%Q init.

(** A state in which power_cycle on port 3 was accepted at time 100. *)
Definition cycle_recorded : state :=
  set_last_operation_time "3:power_cycle" 100%Q init.

(** A state in which port 3 saw its last device call at time 100. *)
Definition device_active : state :=
  set_last_unifi_operation 3%Z 100%Q init.

(** A state whose queue holds one job: power_off for port 3, after 3 s. *)
Definition one_job_queued : state :=
  queue_put (Some {| job_port := 3; job_action := "power_off"; job_delay := 3 |})
    device_active.

(** ** Jobs the worker can sleep for *)

(** [time.sleep(delay)] does not raise. *)
Definition sleepable (j : job) : bool :=
  match time_sleep (job_delay j) with
  | None => true
  | Some _ => false
  end.

(** An event of the trace that the controller may leave: a request to the
    device is the POWER_CYCLE request of some port, there is no GET, and a
    sleep is for a length [time.sleep] takes. *)
Definition expected_event (W : World) (e : event) : Prop :=
  match e with
  | EvPost _ _ _ => exists p : Z, e = power_cycle_request W p
  | EvGet _ _ => False
  | EvSleep d => (0 <= d <= sleep_max)%Q
  | EvLog _ _ => True
  end.

(** * The HTTP front end *)

(** ** Text operations of Python *)

(** [s.replace(old, new)] for a non-empty [old]: the occurrences of [old]
    are replaced from left to right, and the scan goes on after each one;
    [skip] counts the characters of an occurrence still to pass over. *)
Fixpoint replace_from (old new s : string) (skip : nat) : string :=
  match s with
  | EmptyString => EmptyString
  | String c s' =>
      match skip with
      | S k => replace_from old new s' k
      | O =>
          if String.prefix old s
          then new +:+ replace_from old new s' (String.length old - 1)
          else String c (replace_from old new s' 0)
      end
  end.

(** [s.replace("", new)]: [new] goes before every character and at the
    end. *)
Fixpoint replace_empty (new s : string) : string :=
  match s with
  | EmptyString => new
  | String c s' => new +:+ String c (replace_empty new s')
  end.

(** [str.replace] *)
Definition str_replace (old new s : string) : string :=
  match old with
  | EmptyString => replace_empty new s
  | String _ _ => replace_from old new s 0
  end.

(** [old in s] for texts. *)
Fixpoint occurs (old s : string) : bool :=
  match s with
  | EmptyString => String.prefix old s
  | String _ s' => String.prefix old s || occurs old s'
  end.

(** [a or b] where [a] is [None] or a text: the empty text is falsy. *)
Definition py_or (a b : option string) : option string :=
  match a with
  | Some t => if String.eqb t "" then b else a
  | None => b
  end.

(** [not a] for [None] or a text. *)
Definition py_not (a : option string) : bool :=
  match a with
  | Some t => String.eqb t ""
  | None => true
  end.

(** ** Configuration, requests and responses *)

(** What the front end reads of the process environment and of
    [config.json]. *)
Record Settings : Type := mkSettings {
  (* [os.getenv("WEBHOOK_AUTH_TOKEN")] *)
  getenv_auth_token : option string;
  (* [config.webhook_config.get("auth_token")] *)
  config_auth_token : option string;
  (* [config.ports]: a dict keyed by the port number as text *)
  config_ports : gmap string dict;
}.

(** The places of a request [authenticate_request] looks at. *)
Record Request : Type := mkRequest {
  (* [request.headers.get('Authorization')] *)
  authorization : option string;
  (* [request.args.get('token')] *)
  args_token : option string;
  (* [request.form.get('token')] *)
  form_token : option string;
}.

Inductive body : Type :=
  | Json (d : dict)     (* [jsonify(d)] *)
  | Text (s : string).  (* a plain text returned by the view *)

Record response : Type := mkResponse {
  status_code : Z;
  resp_body : body;
  resp_headers : list (string * string);
}.

(** Python's renderings that this development does not compute: [repr] of
    a result dict inside a log line and [str] of a float. *)
Record Rendering : Type := mkRendering {
  repr_dict : dict -> string;
  str_float : Q -> string;
}.

(** [str(v)] *)
Definition py_str (R : Rendering) (v : pyval) : string :=
  match v with
  | VBool b => if b then "True" else "False"
  | VInt z => pretty z
  | VFloat q => str_float R q
  | VStr s => s
  end.

(** [result.get(k, False)] followed by a truth test. *)
Definition get_true (d : dict) (k : string) : bool :=
  match dict_get k d with
  | Some v => truthy v
  | None => false
  end.

(** ** The views *)

Section FrontEnd.

Context (W : World) (cfg : Settings) (R : Rendering).

(** [authenticate_request] *)
Definition authenticate_request (req : Request) : bool :=
  let auth_token := py_or (getenv_auth_token cfg) (config_auth_token cfg) in
  if py_not auth_token then true
  else
    let provided_token :=
      str_replace "Bearer " "" (default "" (authorization req)) in
    let provided_token :=
      if String.eqb provided_token "" then default "" (args_token req)
      else provided_token in
    let provided_token :=
      if String.eqb provided_token "" then default "" (form_token req)
      else provided_token in
    match auth_token with
    | Some t => String.eqb provided_token t
    | None => false
    end.

(** [before_request]: [Some] is the response that ends the request before
    any view runs. *)
Definition before_request (req : Request) : option response :=
  if authenticate_request req then None
  else Some {| status_code := 401;
               resp_body :=
                 Json [("error",
                        VStr "Invalid or missing authentication token")];
               resp_headers := [] |}.

(** [str(port) not in config.ports], and the answer of a view then. *)
Definition not_configured (port : Z) : bool :=
  match config_ports cfg !! pretty port with
  | Some _ => false
  | None => true
  end.

Definition not_configured_response (port : Z) : response :=
  {| status_code := 400;
     resp_body :=
       Json [("error", VStr ("Port " +:+ pretty port +:+ " not configured"))];
     resp_headers := [] |}.

(** [power_on] *)
Definition power_on (port : Z) : M response :=
  if not_configured port then ret (not_configured_response port)
  else
    result ← power_on_port W port;
    let resp :=
      if negb (subscript_true result "success") && get_true result "rate_limited"
      then {| status_code := 429; resp_body := Json result;
              resp_headers :=
                [("Retry-After",
                  py_str R (default (VInt 30) (dict_get "retry_after" result)))] |}
      else {| status_code := if subscript_true result "success" then 200 else 500;
              resp_body := Json result; resp_headers := [] |} in
    emit (EvLog INFO ("Power ON request for port " +:+ pretty port +:+ ": "
                      +:+ repr_dict R result));;
    ret resp.

(** [power_off] *)
Definition power_off (port : Z) : M response :=
  if not_configured port then ret (not_configured_response port)
  else
    result ← power_off_port W port;
    let resp :=
      if negb (subscript_true result "success") && get_true result "rate_limited"
      then {| status_code := 429; resp_body := Json result;
              resp_headers :=
                [("Retry-After",
                  py_str R (default (VInt 30) (dict_get "retry_after" result)))] |}
      else {| status_code := if subscript_true result "success" then 200 else 500;
              resp_body := Json result; resp_headers := [] |} in
    emit (EvLog INFO ("Power OFF request for port " +:+ pretty port +:+ ": "
                      +:+ repr_dict R result));;
    ret resp.

(** [power_cycle] *)
Definition power_cycle (port : Z) : M response :=
  if not_configured port then ret (not_configured_response port)
  else
    result ← power_cycle_port W port;
    let resp :=
      if negb (subscript_true result "success") && get_true result "rate_limited"
      then {| status_code := 429; resp_body := Json result;
              resp_headers :=
                [("Retry-After",
                  py_str R (default (VInt 30) (dict_get "retry_after" result)))] |}
      else {| status_code := if subscript_true result "success" then 200 else 500;
              resp_body := Json result; resp_headers := [] |} in
    emit (EvLog INFO ("Power CYCLE request for port " +:+ pretty port +:+ ": "
                      +:+ repr_dict R result));;
    ret resp.

(** [power_status].  The view answers with the status text itself when the
    result has one; [get_port_status] always gives a text there. *)
Definition power_status (port : Z) : M response :=
  if not_configured port then ret (not_configured_response port)
  else
    result ← get_port_status W port;
    let code := if subscript_true result "success" then 200%Z else 500%Z in
    emit (EvLog INFO ("Status request for port " +:+ pretty port +:+ ": "
                      +:+ repr_dict R result));;
    match subscript_true result "success", dict_get "status" result with
    | true, Some (VStr text) =>
        ret {| status_code := code; resp_body := Text text; resp_headers := [] |}
    | _, _ =>
        ret {| status_code := code; resp_body := Json result; resp_headers := [] |}
    end.

(** A request through the application: [before_request], then the view
    unless a response is there already. *)
Definition serve (view : M response) (req : Request) : M response :=
  match before_request req with
  | Some refused => ret refused
  | None => view
  end.

End FrontEnd.

(** The view of each route. *)
Inductive route : Type :=
  | RouteOn | RouteOff | RouteCycle | RouteStatus.

Definition view_of (W : World) (cfg : Settings) (R : Rendering)
    (r : route) (port : Z) : M response :=
  match r with
  | RouteOn => power_on W cfg R port
  | RouteOff => power_off W cfg R port
  | RouteCycle => power_cycle W cfg R port
  | RouteStatus => power_status W cfg R port
  end.

(** The route of each operation. *)
Definition route_of (op : operation) : route :=
  match op with
  | PowerOn => RouteOn
  | PowerOff => RouteOff
  | PowerCycle => RouteCycle
  end.

(** A request with nothing to authenticate it, and one with a header. *)
Definition bare_request : Request :=
  {| authorization := None; args_token := None; form_token := None |}.

Definition header_request (h : string) : Request :=
  {| authorization := Some h; args_token := None; form_token := None |}.

(** Settings with the token "s3cret" in [config.json] and port 3
    configured. *)
Definition token_settings : Settings :=
  {| getenv_auth_token := None; config_auth_token := Some "s3cret";
     config_ports := {[ "3" := [("name", VStr "pi-node-3")] ]} |}.

Definition plain_rendering : Rendering :=
  {| repr_dict := fun _ => "{...}"; str_float := fun _ => "0.0" |}.

(** * Lemmas and theorems *)

(** ** Text *)

Module Text.

#[local] Arguments String.append : simpl nomatch.

Lemma append_assoc (a b c : string) : (a +:+ b) +:+ c = a +:+ b +:+ c.
Proof. induction a as [|x a IH]; simpl; [reflexivity | rewrite IH; reflexivity]. Qed.

End Text.

(** ** Operation keys *)

Module Key.

#[local] Arguments String.append : simpl nomatch.

Lemma pretty_N_char_no_colon (d : N) : pretty_N_char d <> ":"%char.
Proof. unfold pretty_N_char. repeat case_match; discriminate. Qed.

Lemma colon_free_pretty_N_go (x : N) :
  forall s, colon_free s -> colon_free (pretty_N_go x s).
Proof.
  induction (N.lt_wf_0 x) as [x _ IH]. intros s Hs.
  destruct (decide (x = 0)%N) as [->|Hx].
  - rewrite pretty_N_go_0. exact Hs.
  - rewrite pretty_N_go_step by lia.
    apply IH.
    + apply N.div_lt; lia.
    + simpl. split; [apply pretty_N_char_no_colon | exact Hs].
Qed.

Lemma colon_free_pretty_N (x : N) : colon_free (pretty x).
Proof.
  unfold pretty, pretty_N. case_decide.
  - simpl. split; [discriminate | exact I].
  - apply colon_free_pretty_N_go. exact I.
Qed.

Lemma colon_free_pretty_Z (z : Z) : colon_free (pretty z).
Proof.
  destruct z as [|p|p]; unfold pretty, pretty_Z.
  - simpl. split; [discriminate | exact I].
  - apply (colon_free_pretty_N (N.pos p)).
  - simpl. split; [discriminate | apply (colon_free_pretty_N (N.pos p))].
Qed.

(** Two texts without a colon, each followed by a colon and a rest, are
    equal only piece by piece. *)
Lemma split_at_colon (a : string) :
  forall b x y, colon_free a -> colon_free b ->
    a +:+ ":" +:+ x = b +:+ ":" +:+ y -> a = b /\ x = y.
Proof.
  induction a as [|c a IH]; intros [|d b] x y Ha Hb Heq; simpl in *.
  - injection Heq as ->. done.
  - injection Heq as <- _. destruct Hb as [Hd _]. done.
  - injection Heq as -> _. destruct Ha as [Hc _]. done.
  - injection Heq as -> Heq. destruct Ha as [_ Ha], Hb as [_ Hb].
    destruct (IH b x y Ha Hb Heq) as [-> ->]. done.
Qed.

(** [_get_operation_key] is injective: a key names one port and one
    operation. *)
Lemma key_inj (p p' : Z) (o o' : string) :
  _get_operation_key p o = _get_operation_key p' o' -> p = p' /\ o = o'.
Proof.
  unfold _get_operation_key. intros Heq.
  apply split_at_colon in Heq as [Hp Ho];
    [| apply colon_free_pretty_Z | apply colon_free_pretty_Z].
  split; [| exact Ho]. apply (inj pretty). exact Hp.
Qed.

Lemma key_ne (p p' : Z) (o o' : string) :
  p <> p' \/ o <> o' -> _get_operation_key p o <> _get_operation_key p' o'.
Proof. intros Hne Heq. apply key_inj in Heq as [-> ->]. destruct Hne; done. Qed.

Lemma op_name_inj (a b : operation) : op_name a = op_name b -> a = b.
Proof. destruct a, b; simpl; intros H; done. Qed.

End Key.

(** ** What each method does to a state *)

Section Run.

Context (W : World).

Lemma run_is_limited (p : Z) (o : string) (s : state) :
  _is_port_operation_rate_limited W p o s =
  match last_operation_time s !! _get_operation_key p o with
  | None => (false, s)
  | Some last =>
      (if Qlt_le_dec (clock W (time_reads s) - last) rate_limit_seconds
       then true else false, tick_time s)
  end.
Proof.
  unfold _is_port_operation_rate_limited, bind, get_state.
  destruct (last_operation_time s !! _get_operation_key p o); reflexivity.
Qed.

Lemma run_record (p : Z) (o : string) (s : state) :
  _record_port_operation W p o s =
  (tt, set_last_operation_time (_get_operation_key p o)
         (clock W (time_reads s)) (tick_time s)).
Proof. reflexivity. Qed.

Lemma run_can_execute (p : Z) (s : state) :
  _can_execute_immediately W p s =
  match last_unifi_operation s !! p with
  | None => (true, s)
  | Some last =>
      (if Qlt_le_dec (clock W (time_reads s) - last) unifi_cooldown
       then false else true, tick_time s)
  end.
Proof.
  unfold _can_execute_immediately, bind, get_state.
  destruct (last_unifi_operation s !! p); reflexivity.
Qed.

Lemma run_execute (p : Z) (a : string) (s : state) :
  _execute_power_cycle W p a s =
  (execute_result (http W (http_calls s)) p a (isoformat W (datetime_reads s)),
   tick_datetime (tick_http (add_event (power_cycle_request W p) s))).
Proof.
  unfold _execute_power_cycle, _make_request, bind, emit, modify, http_next,
    datetime_now_isoformat, ret, execute_result.
  change (String.eqb (upper "POST") "POST") with true. cbv beta iota.
  change (http_calls (add_event _ s)) with (http_calls s).
  destruct (http W (http_calls s)) as [e|c]; [reflexivity|].
  destruct (Z.eqb c 200); reflexivity.
Qed.

Lemma execute_result_success (o : http_outcome) (p : Z) (a ts : string) :
  subscript_true (execute_result o p a ts) "success" = call_ok o.
Proof.
  destruct o as [e|c]; simpl; [reflexivity|].
  destruct (Z.eqb c 200); reflexivity.
Qed.

End Run.

(** ** Power on *)

(** C3. [power_on_port] succeeds on every port and in every state with status
    "no_action_needed"; its result is not a rate-limit rejection; it sends
    nothing to the device (no HTTP call, nothing added to the trace); and it
    stores the clock value it read under the key of (port, power_on), leaving
    the device-activity map and the queue as they were. *)
Theorem power_on_port_no_action (W : World) (p : Z) (s : state) :
  let r := fst (power_on_port W p s) in
  let s' := snd (power_on_port W p s) in
  dict_get "success" r = Some (VBool true)
  /\ dict_get "status" r = Some (VStr "no_action_needed")
  /\ ~ rejected r
  /\ dict_get "rate_limited" r = None
  /\ trace s' = trace s
  /\ http_calls s' = http_calls s
  /\ last_operation_time s' =
       <[_get_operation_key p (op_name PowerOn) := clock W (time_reads s)]>
         (last_operation_time s)
  /\ last_unifi_operation s' = last_unifi_operation s
  /\ operation_queue s' = operation_queue s.
Proof.
  cbv zeta. unfold rejected. simpl.
  repeat split; try reflexivity. intros [H _]. discriminate H.
Qed.

(** ** Status inference *)

(** C4. [get_port_status] answers "status: stopped" when the timestamp
    recorded for power_off on the port is strictly greater than the one
    recorded for power_on, and "status: running" otherwise, in particular
    when neither was ever recorded; an operation never recorded counts as
    recorded at 0, so a power_off recorded at a positive clock value with no
    power_on gives "status: stopped".  The answer is a function of these two
    timestamps only: two states (under any two environments) that agree on
    them get the same status text.  The query sends nothing to the device and
    changes nothing but the count of [datetime.now()] calls. *)
Theorem get_port_status_inference (W : World) (p : Z) (s : state) :
  let r := fst (get_port_status W p s) in
  let s' := snd (get_port_status W p s) in
  dict_get "success" r = Some (VBool true)
  /\ ((recorded s p PowerOn < recorded s p PowerOff)%Q ->
      dict_get "status" r = Some (VStr "status: stopped"))
  /\ (~ (recorded s p PowerOn < recorded s p PowerOff)%Q ->
      dict_get "status" r = Some (VStr "status: running"))
  /\ (last_operation_time s !! _get_operation_key p (op_name PowerOff) = None ->
      last_operation_time s !! _get_operation_key p (op_name PowerOn) = None ->
      dict_get "status" r = Some (VStr "status: running"))
  /\ (forall t : Q,
        last_operation_time s !! _get_operation_key p (op_name PowerOff) = Some t ->
        last_operation_time s !! _get_operation_key p (op_name PowerOn) = None ->
        (0 < t)%Q ->
        dict_get "status" r = Some (VStr "status: stopped"))
  /\ (forall (W2 : World) (s2 : state),
        recorded s2 p PowerOff = recorded s p PowerOff ->
        recorded s2 p PowerOn = recorded s p PowerOn ->
        dict_get "status" (fst (get_port_status W2 p s2)) = dict_get "status" r)
  /\ s' = tick_datetime s
  /\ trace s' = trace s
  /\ http_calls s' = http_calls s.
Proof.
  cbv zeta.
  assert (Hrun : forall W' t,
    dict_get "status" (fst (get_port_status W' p t)) =
    Some (VStr (if Qlt_le_dec (recorded t p PowerOn) (recorded t p PowerOff)
                then "status: stopped" else "status: running"))).
  { intros W' t. unfold get_port_status, bind, get_state, recorded,
      _get_operation_key. simpl.
    destruct (Qlt_le_dec _ _); reflexivity. }
  split; [reflexivity|].
  assert (Hstop : (recorded s p PowerOn < recorded s p PowerOff)%Q ->
                  dict_get "status" (fst (get_port_status W p s))
                  = Some (VStr "status: stopped")).
  { intros Hlt. rewrite Hrun.
    destruct (Qlt_le_dec _ _) as [_|Hle]; [reflexivity|].
    exfalso. apply (Qlt_not_le _ _ Hlt Hle). }
  split; [|split; [|split; [|split; [|split]]]].
  - exact Hstop.
  - intros Hnlt. rewrite Hrun.
    destruct (Qlt_le_dec _ _) as [Hlt|_]; [contradiction|reflexivity].
  - intros Hoff Hon. rewrite Hrun. unfold recorded. rewrite Hoff, Hon.
    reflexivity.
  - intros t Hoff Hon Ht. apply Hstop. unfold recorded.
    rewrite Hoff, Hon. exact Ht.
  - intros W2 s2 Hoff Hon. rewrite !Hrun, Hoff, Hon. reflexivity.
  - repeat split.
Qed.

(** ** Power off and power cycle: one algorithm *)

Lemma power_off_port_request (W : World) (p : Z) :
  power_off_port W p = power_request W "power_off" p.
Proof. reflexivity. Qed.

Lemma power_cycle_port_request (W : World) (p : Z) :
  power_cycle_port W p = power_request W "power_cycle" p.
Proof. reflexivity. Qed.

Lemma dispatch_request (W : World) (op : operation) (p : Z) :
  op <> PowerOn -> dispatch W op p = power_request W (op_name op) p.
Proof. destruct op; [done | reflexivity | reflexivity]. Qed.

Section Paths.

Context (W : World).

Lemma checked_cases (a : string) (p : Z) (s : state) :
  checked W a p s = s \/ checked W a p s = tick_time s.
Proof.
  unfold checked. rewrite run_is_limited.
  destruct (last_operation_time s !! _) ; simpl; auto.
Qed.

Lemma limited_iff (a : string) (p : Z) (s : state) :
  limited W a p s = true <->
  exists last,
    last_operation_time s !! _get_operation_key p a = Some last
    /\ (clock W (time_reads s) - last < rate_limit_seconds)%Q.
Proof.
  unfold limited. rewrite run_is_limited.
  destruct (last_operation_time s !! _) as [last|]; simpl.
  - destruct (Qlt_le_dec _ _) as [Hlt|Hle]; split.
    + intros _. exists last. done.
    + done.
    + done.
    + intros (l & [= <-] & Hlt). exfalso. apply (Qlt_not_le _ _ Hlt Hle).
  - split; [done|]. intros (l & Hl & _). done.
Qed.

Lemma limited_checked (a : string) (p : Z) (s : state) :
  limited W a p s = true -> checked W a p s = tick_time s.
Proof.
  unfold limited, checked. rewrite run_is_limited.
  destruct (last_operation_time s !! _); simpl; [done|discriminate].
Qed.

Lemma accepted_eq (a : string) (p : Z) (s : state) :
  accepted W a p s =
  set_last_operation_time (_get_operation_key p a)
    (clock W (time_reads (checked W a p s))) (tick_time (checked W a p s)).
Proof. reflexivity. Qed.

Lemma gated_cases (a : string) (p : Z) (s : state) :
  gated W a p s = accepted W a p s \/ gated W a p s = tick_time (accepted W a p s).
Proof.
  unfold gated. rewrite run_can_execute.
  destruct (last_unifi_operation (accepted W a p s) !! p); simpl; auto.
Qed.

Lemma accepted_last_unifi (a : string) (p : Z) (s : state) :
  last_unifi_operation (accepted W a p s) = last_unifi_operation s.
Proof.
  rewrite accepted_eq. simpl.
  destruct (checked_cases a p s) as [-> | ->]; reflexivity.
Qed.

Lemma immediate_iff (a : string) (p : Z) (s : state) :
  immediate W a p s = true <->
  (last_unifi_operation s !! p = None
   \/ exists last,
        last_unifi_operation s !! p = Some last
        /\ (unifi_cooldown <= clock W (time_reads (accepted W a p s)) - last)%Q).
Proof.
  unfold immediate. rewrite run_can_execute, accepted_last_unifi.
  destruct (last_unifi_operation s !! p) as [last|]; simpl.
  - destruct (Qlt_le_dec _ _) as [Hlt|Hle]; split.
    + discriminate.
    + intros [H | (l & [= <-] & Hle)]; [done|].
      exfalso. apply (Qlt_not_le _ _ Hlt Hle).
    + intros _. right. exists last. done.
    + done.
  - split; [auto | done].
Qed.

Lemma deferred_iff (a : string) (p : Z) (s : state) :
  immediate W a p s = false <->
  exists last,
    last_unifi_operation s !! p = Some last
    /\ (clock W (time_reads (accepted W a p s)) - last < unifi_cooldown)%Q.
Proof.
  unfold immediate. rewrite run_can_execute, accepted_last_unifi.
  destruct (last_unifi_operation s !! p) as [last|]; simpl.
  - destruct (Qlt_le_dec _ _) as [Hlt|Hle]; split.
    + intros _. exists last. done.
    + done.
    + discriminate.
    + intros (l & [= <-] & Hlt). exfalso. apply (Qlt_not_le _ _ Hlt Hle).
  - split; [discriminate|]. intros (l & Hl & _). done.
Qed.

Lemma deferred_gated (a : string) (p : Z) (s : state) :
  immediate W a p s = false -> gated W a p s = tick_time (accepted W a p s).
Proof.
  unfold immediate, gated. rewrite run_can_execute.
  destruct (last_unifi_operation (accepted W a p s) !! p); simpl;
    [done|discriminate].
Qed.

(** The rejected path. *)
Lemma power_request_limited (a : string) (p : Z) (s : state) :
  limited W a p s = true ->
  power_request W a p s = _get_rate_limit_response W p a (checked W a p s).
Proof.
  unfold limited, checked, power_request, bind. intros H.
  destruct (_is_port_operation_rate_limited W p a s) as [b s1].
  simpl in H. subst b. reflexivity.
Qed.

(** The immediate path. *)
Lemma power_request_immediate (a : string) (p : Z) (s : state) :
  limited W a p s = false -> immediate W a p s = true ->
  let g := gated W a p s in
  let o := http W (http_calls g) in
  let sent := tick_datetime (tick_http (add_event (power_cycle_request W p) g)) in
  power_request W a p s =
  (execute_result o p a (isoformat W (datetime_reads g)),
   if call_ok o
   then set_last_unifi_operation p (clock W (time_reads sent)) (tick_time sent)
   else sent).
Proof.
  unfold limited, immediate, gated, accepted, checked, power_request,
    complete_request, bind.
  intros Hl Hi.
  destruct (_is_port_operation_rate_limited W p a s) as [b s1].
  cbn [fst snd] in Hl, Hi |- *. subst b. cbv iota.
  destruct (_record_port_operation W p a s1) as [[] s2].
  cbn [fst snd] in Hi |- *.
  destruct (_can_execute_immediately W p s2) as [b s3].
  cbn [fst snd] in Hi |- *. subst b. cbv iota.
  rewrite run_execute, execute_result_success.
  destruct (call_ok (http W (http_calls s3))); reflexivity.
Qed.

(** The deferred path. *)
Lemma power_request_queued (a : string) (p : Z) (s : state) :
  limited W a p s = false -> immediate W a p s = false ->
  let d := queued_delay W a p s in
  power_request W a p s =
  ([("success", VBool true);
    ("action", VStr a);
    ("port", VInt p);
    ("status", VStr "queued");
    ("queued_delay", VFloat (Qmax 0 d));
    ("message", VStr ("Operation queued for execution in "
                      +:+ pretty (Z.max 0 (py_int d)) +:+ " seconds"));
    ("timestamp", VStr (isoformat W (datetime_reads s)))],
   tick_datetime
     (queue_put (Some {| job_port := p; job_action := a;
                         job_delay := Qmax 0 d |})
        (tick_time (gated W a p s)))).
Proof.
  intros Hl Hi. cbv zeta.
  assert (Hd : datetime_reads (gated W a p s) = datetime_reads s).
  { rewrite (deferred_gated _ _ _ Hi), accepted_eq. simpl.
    destruct (checked_cases a p s) as [-> | ->]; reflexivity. }
  assert (Hu : last_unifi_operation (gated W a p s) = last_unifi_operation s).
  { rewrite (deferred_gated _ _ _ Hi). simpl. apply accepted_last_unifi. }
  unfold queued_delay. rewrite <- Hd, <- Hu.
  revert Hl Hi.
  unfold limited, immediate, gated, accepted, checked, power_request,
    complete_request, bind.
  intros Hl Hi.
  destruct (_is_port_operation_rate_limited W p a s) as [b s1].
  cbn [fst snd] in Hl, Hi |- *. subst b. cbv iota.
  destruct (_record_port_operation W p a s1) as [[] s2].
  cbn [fst snd] in Hi |- *.
  destruct (_can_execute_immediately W p s2) as [b s3].
  cbn [fst snd] in Hi |- *. subst b. reflexivity.
Qed.

End Paths.

(** ** Frame facts *)

Section Frames.

Context (W : World).

Lemma run_rate_limit_response (p : Z) (a : string) (s : state) :
  _get_rate_limit_response W p a s =
  (let time_remaining :=
     (rate_limit_seconds
      - (clock W (time_reads s)
         - default 0%Q (last_operation_time s !! _get_operation_key p a)))%Q in
   [("success", VBool false);
    ("action", VStr a);
    ("port", VInt p);
    ("error", VStr ("Rate limited. Please wait "
                    +:+ pretty (py_int time_remaining)
                    +:+ " seconds before next " +:+ a +:+ " operation"));
    ("rate_limited", VBool true);
    ("retry_after", VInt (py_int time_remaining));
    ("timestamp", VStr (isoformat W (datetime_reads s)))],
   tick_datetime (tick_time s)).
Proof. reflexivity. Qed.

(** Up to the verdict of the gate, an accepted request has changed the
    operation record of its key and the count of clock reads, nothing else. *)
Lemma gated_frame (a : string) (p : Z) (s : state) :
  trace (gated W a p s) = trace s
  /\ http_calls (gated W a p s) = http_calls s
  /\ datetime_reads (gated W a p s) = datetime_reads s
  /\ operation_queue (gated W a p s) = operation_queue s
  /\ unfinished_tasks (gated W a p s) = unfinished_tasks s
  /\ last_unifi_operation (gated W a p s) = last_unifi_operation s
  /\ last_operation_time (gated W a p s) =
       <[_get_operation_key p a := clock W (time_reads (checked W a p s))]>
         (last_operation_time s).
Proof.
  destruct (gated_cases W a p s) as [-> | ->]; rewrite accepted_eq;
    destruct (checked_cases W a p s) as [-> | ->]; simpl; repeat split.
Qed.

Lemma not_rejected_execute_result (o : http_outcome) (p : Z) (a ts : string) :
  ~ rejected (execute_result o p a ts).
Proof.
  intros [_ H]. destruct o as [e|c]; simpl in H; [discriminate|].
  destruct (Z.eqb c 200); discriminate.
Qed.

(** A result is a rejection exactly when the limiter said "limited". *)
Lemma rejected_iff_limited (a : string) (p : Z) (s : state) :
  rejected (fst (power_request W a p s)) <-> limited W a p s = true.
Proof.
  split.
  - intros Hrej. destruct (limited W a p s) eqn:Hl; [reflexivity|].
    exfalso. destruct (immediate W a p s) eqn:Hi.
    + rewrite (power_request_immediate W a p s Hl Hi) in Hrej.
      exact (not_rejected_execute_result _ _ _ _ Hrej).
    + rewrite (power_request_queued W a p s Hl Hi) in Hrej.
      destruct Hrej as [H _]. discriminate H.
  - intros Hl. rewrite (power_request_limited W a p s Hl).
    rewrite run_rate_limit_response. split; reflexivity.
Qed.

End Frames.

(** ** The rate limiter *)

(** C1. A power_off or power_cycle request on a port is rejected as
    rate-limited (success false, rate_limited true) exactly when the
    operation-record map holds a timestamp for the same port and operation
    that lies strictly less than 30 seconds before the clock value read by
    the check.  Recording any other (port, operation) pair leaves that entry
    as it was, so a different operation on the same port, or the same
    operation on another port, does not make the request rejected. *)
Theorem rate_limited_iff_recent_record
    (W : World) (op : operation) (p : Z) (s : state)
    (op' : operation) (p' : Z)
    (Hop : op <> PowerOn) (Hother : p' <> p \/ op' <> op) :
  (rejected (fst (dispatch W op p s)) <->
   exists last : Q,
     last_operation_time s !! _get_operation_key p (op_name op) = Some last
     /\ (clock W (time_reads s) - last < 30)%Q)
  /\ (let s1 := snd (_record_port_operation W p' (op_name op') s) in
      last_operation_time s1 !! _get_operation_key p (op_name op) =
      last_operation_time s !! _get_operation_key p (op_name op)
      /\ (last_operation_time s !! _get_operation_key p (op_name op) = None ->
          ~ rejected (fst (dispatch W op p s1)))).
Proof.
  rewrite (dispatch_request W op p Hop).
  split.
  - rewrite rejected_iff_limited. apply limited_iff.
  - cbv zeta. rewrite run_record. cbn [snd].
    assert (Hlook :
      last_operation_time
        (set_last_operation_time (_get_operation_key p' (op_name op'))
           (clock W (time_reads s)) (tick_time s))
        !! _get_operation_key p (op_name op)
      = last_operation_time s !! _get_operation_key p (op_name op)).
    { simpl. apply lookup_insert_ne. apply Key.key_ne.
      destruct Hother as [Hp | Ho]; [left; exact Hp | right].
      intros Heq. apply Ho. apply Key.op_name_inj. exact Heq. }
    split; [exact Hlook|].
    intros Hnone Hrej. apply rejected_iff_limited, limited_iff in Hrej.
    destruct Hrej as (last & Hsome & _).
    rewrite Hlook, Hnone in Hsome. discriminate Hsome.
Qed.

(** C1 at work: power_off on port 3 was recorded at time 100 and the clock
    reads 105, so a second power_off on port 3 is rejected. *)
Lemma rate_limited_iff_recent_record_witness :
  PowerOff <> PowerOn
  /\ (4%Z <> 3%Z \/ PowerOff <> PowerOff)
  /\ rejected (fst (dispatch (world_of [105; 105]%Q []) PowerOff 3 off_recorded)).
Proof.
  assert (H1 : PowerOff <> PowerOn) by discriminate.
  assert (H2 : 4%Z <> 3%Z \/ PowerOff <> PowerOff) by (left; discriminate).
  split; [exact H1|]. split; [exact H2|].
  apply (proj1 (rate_limited_iff_recent_record
                  (world_of [105; 105]%Q []) PowerOff 3 off_recorded
                  PowerOff 4 H1 H2)).
  exists 100%Q. split; [vm_compute; reflexivity | vm_compute; reflexivity].
Defined.

(** ** Truncation and the clamp *)

Lemma py_int_nonneg (q : Q) : (0 <= q)%Q -> (0 <= py_int q)%Z.
Proof.
  destruct q as [a d]. unfold py_int, Qle. simpl. intros H.
  apply Z.quot_pos; lia.
Qed.

Lemma py_int_le (q : Q) (n : Z) : (q <= inject_Z n)%Q -> (py_int q <= n)%Z.
Proof.
  destruct q as [a d]. unfold py_int, Qle. simpl. intros H.
  apply Z.quot_le_upper_bound; lia.
Qed.

Lemma py_int_pos_iff (q : Q) : (0 < py_int q)%Z <-> (1 <= q)%Q.
Proof.
  destruct q as [a d]. unfold py_int, Qle. simpl. split.
  - intros H. destruct (Z.lt_ge_cases a (Z.pos d)) as [Hlt | Hge]; [|lia].
    exfalso. destruct (Z.lt_ge_cases a 0) as [Hneg | Hpos].
    + assert (a ÷ Z.pos d <= 0)%Z by (apply Z.quot_le_upper_bound; lia). lia.
    + rewrite Z.quot_small in H by lia. lia.
  - intros H.
    assert (1 <= a ÷ Z.pos d)%Z by (apply Z.quot_le_lower_bound; lia). lia.
Qed.

Lemma Qmax_0_nonneg (x : Q) : (0 <= Qmax 0 x)%Q.
Proof. apply Q.le_max_l. Qed.

Lemma Qmax_0_pos_iff (x : Q) : (0 < Qmax 0 x)%Q <-> (0 < x)%Q.
Proof.
  split.
  - intros H. destruct (Qlt_le_dec 0 x) as [Hlt | Hle]; [exact Hlt|].
    exfalso. rewrite (Q.max_l 0 x Hle) in H. apply (Qlt_irrefl 0 H).
  - intros H. apply Qlt_le_trans with x; [exact H | apply Q.le_max_r].
Qed.

Lemma Qmax_0_le (x b : Q) : (0 <= b)%Q -> (x <= b)%Q -> (Qmax 0 x <= b)%Q.
Proof. intros H0 Hx. apply Q.max_lub; assumption. Qed.

(** ** The rate-limit response *)

(** C5, as the code has it.  A rejected power_off or power_cycle request
    carries retry_after = the remaining cooldown truncated toward zero, where
    the remaining cooldown is 30 - (now - last) for the clock value [now] read
    when the response is built.  It is at most 30 when the clock has not gone
    back behind the record, at least 0 when the window has not run out by
    then, and positive exactly when a full second or more remains: it is 0
    during the last second of the window. *)
Theorem retry_after_truncated_remaining
    (W : World) (op : operation) (p : Z) (s : state) (last : Q)
    (Hop : op <> PowerOn)
    (Hrec : last_operation_time s !! _get_operation_key p (op_name op) = Some last)
    (Hlim : (clock W (time_reads s) - last < 30)%Q) :
  let r := fst (dispatch W op p s) in
  let now := clock W (S (time_reads s)) in
  let remaining := (30 - (now - last))%Q in
  rejected r
  /\ dict_get "retry_after" r = Some (VInt (py_int remaining))
  /\ ((last <= now)%Q -> (py_int remaining <= 30)%Z)
  /\ ((now - last <= 30)%Q -> (0 <= py_int remaining)%Z)
  /\ ((0 < py_int remaining)%Z <-> (now - last <= 29)%Q).
Proof.
  cbv zeta. rewrite (dispatch_request W op p Hop).
  assert (Hl : limited W (op_name op) p s = true).
  { apply limited_iff. exists last. split; assumption. }
  split; [apply rejected_iff_limited; exact Hl|].
  rewrite (power_request_limited W _ p s Hl), (limited_checked W _ p s Hl).
  rewrite run_rate_limit_response. cbn [fst time_reads tick_time last_operation_time].
  rewrite Hrec. cbn [default from_option].
  split; [reflexivity|].
  split; [|split].
  - intros Hmono. apply py_int_le. change (inject_Z 30) with 30%Q.
    unfold rate_limit_seconds. lra.
  - intros Hin. apply py_int_nonneg. unfold rate_limit_seconds. lra.
  - rewrite py_int_pos_iff. unfold rate_limit_seconds. split; intros H; lra.
Qed.

(** C5 at work: recorded at 100, checked and answered at 105. *)
Lemma retry_after_truncated_remaining_witness :
  PowerOff <> PowerOn
  /\ last_operation_time off_recorded !! _get_operation_key 3 (op_name PowerOff)
     = Some 100%Q
  /\ (clock (world_of [105; 105]%Q []) (time_reads off_recorded) - 100 < 30)%Q
  /\ dict_get "retry_after"
       (fst (dispatch (world_of [105; 105]%Q []) PowerOff 3 off_recorded))
     = Some (VInt 25).
Proof.
  assert (H1 : PowerOff <> PowerOn) by discriminate.
  assert (H2 : last_operation_time off_recorded
                 !! _get_operation_key 3 (op_name PowerOff) = Some 100%Q)
    by (vm_compute; reflexivity).
  assert (H3 : (clock (world_of [105; 105]%Q []) (time_reads off_recorded)
                - 100 < 30)%Q) by (vm_compute; reflexivity).
  split; [exact H1|]. split; [exact H2|]. split; [exact H3|].
  exact (proj1 (proj2 (retry_after_truncated_remaining
                         (world_of [105; 105]%Q []) PowerOff 3 off_recorded
                         100%Q H1 H2 H3))).
Defined.

(** C5 as stated fails: power_off on port 3 was recorded at 100; a second
    power_off arrives when the clock reads 129.5.  It is rejected, and the
    half second that remains truncates to retry_after = 0, which is not in
    (0, 30]. *)
Lemma retry_after_zero_in_last_second :
  let r := fst (dispatch (world_of [259 # 2; 259 # 2]%Q []) PowerOff 3
                  off_recorded) in
  rejected r
  /\ dict_get "retry_after" r = Some (VInt 0)
  /\ ~ (0 < 0 <= 30)%Z.
Proof.
  cbv zeta. split; [split; vm_compute; reflexivity|].
  split; [vm_compute; reflexivity | lia].
Qed.

(** ** The cooldown gate and the deferred branch *)

(** What the deferred branch leaves behind: the job and the result field. *)
Lemma gate_queue_shape
    (W : World) (op : operation) (p : Z) (s : state) (last : Q) :
  op <> PowerOn ->
  ~ rejected (fst (dispatch W op p s)) ->
  last_unifi_operation s !! p = Some last ->
  (clock W (time_reads (accepted W (op_name op) p s)) - last < 10)%Q ->
  let delay :=
    Qmax 0 (10 - (clock W (S (time_reads (accepted W (op_name op) p s)))
                  - last)) in
  operation_queue (snd (dispatch W op p s)) =
    (operation_queue s
     ++ [Some {| job_port := p; job_action := op_name op;
                 job_delay := delay |}])%list
  /\ dict_get "queued_delay" (fst (dispatch W op p s)) = Some (VFloat delay).
Proof.
  intros Hop Hacc Hlast Hlt. cbv zeta.
  revert Hacc. rewrite (dispatch_request W op p Hop).
  rewrite rejected_iff_limited. intros Hacc.
  apply not_true_is_false in Hacc.
  assert (Hdef : immediate W (op_name op) p s = false).
  { apply deferred_iff. exists last. split; assumption. }
  rewrite (power_request_queued W _ p s Hacc Hdef). cbn [fst snd].
  unfold queued_delay. rewrite (deferred_gated W _ p s Hdef), Hlast.
  simpl.
  destruct (checked_cases W (op_name op) p s) as [-> | ->]; repeat split.
Qed.

(** C2. A power_off or power_cycle request that the rate limiter accepts:
    - when the port has no device-activity record, or the clock value the
      gate reads is at least 10 seconds past that record, sends the one
      device request at once (one HTTP call, nothing queued) and returns the
      adapter's result;
    - otherwise sends nothing, appends to the queue the job of this port and
      operation with delay max(0, 10 - (now - last)), [now] being the clock
      value read for the delay, and returns success with status "queued" and
      the same delay. *)
Theorem gate_executes_or_queues
    (W : World) (op : operation) (p : Z) (s : state)
    (Hop : op <> PowerOn)
    (Hacc : ~ rejected (fst (dispatch W op p s))) :
  let r := fst (dispatch W op p s) in
  let s' := snd (dispatch W op p s) in
  let at_gate := clock W (time_reads (accepted W (op_name op) p s)) in
  let at_delay := clock W (S (time_reads (accepted W (op_name op) p s))) in
  ((last_unifi_operation s !! p = None
    \/ exists last, last_unifi_operation s !! p = Some last
                    /\ (10 <= at_gate - last)%Q) ->
   trace s' = (trace s ++ [power_cycle_request W p])%list
   /\ http_calls s' = S (http_calls s)
   /\ operation_queue s' = operation_queue s
   /\ r = execute_result (http W (http_calls s)) p (op_name op)
            (isoformat W (datetime_reads s)))
  /\ (forall last, last_unifi_operation s !! p = Some last ->
      (at_gate - last < 10)%Q ->
      let delay := Qmax 0 (10 - (at_delay - last)) in
      trace s' = trace s
      /\ http_calls s' = http_calls s
      /\ operation_queue s' =
           (operation_queue s
            ++ [Some {| job_port := p; job_action := op_name op;
                        job_delay := delay |}])%list
      /\ dict_get "success" r = Some (VBool true)
      /\ dict_get "status" r = Some (VStr "queued")
      /\ dict_get "queued_delay" r = Some (VFloat delay)).
Proof.
  cbv zeta. revert Hacc. rewrite (dispatch_request W op p Hop).
  rewrite rejected_iff_limited. intros Hacc.
  apply not_true_is_false in Hacc.
  destruct (gated_frame W (op_name op) p s) as (Ht & Hh & Hd & Hq & _ & Hu & _).
  split.
  - intros Himm. apply (immediate_iff W (op_name op) p s) in Himm.
    rewrite (power_request_immediate W _ p s Hacc Himm). cbn [fst snd].
    rewrite Hh, Hd.
    destruct (call_ok (http W (http_calls s))); simpl;
      rewrite Ht, Hh, Hq; repeat split.
  - intros last Hlast Hlt.
    assert (Hdef : immediate W (op_name op) p s = false).
    { apply deferred_iff. exists last. split; assumption. }
    rewrite (power_request_queued W _ p s Hacc Hdef). cbn [fst snd].
    unfold queued_delay. rewrite (deferred_gated W _ p s Hdef), Hlast.
    simpl.
    destruct (checked_cases W (op_name op) p s) as [-> | ->]; repeat split.
Qed.

(** C2 at work: port 3 saw a device call at 100; power_off is recorded at
    105, the gate reads 106 (6 < 10), the delay is computed at 107: the job
    waits 3 seconds. *)
Lemma gate_executes_or_queues_witness :
  PowerOff <> PowerOn
  /\ ~ rejected (fst (dispatch (world_of [105; 106; 107]%Q []) PowerOff 3
                        device_active))
  /\ operation_queue
       (snd (dispatch (world_of [105; 106; 107]%Q []) PowerOff 3 device_active))
     = [Some {| job_port := 3; job_action := "power_off"; job_delay := 3 |}].
Proof.
  assert (H1 : PowerOff <> PowerOn) by discriminate.
  assert (H2 : ~ rejected (fst (dispatch (world_of [105; 106; 107]%Q [])
                                  PowerOff 3 device_active))).
  { intros [H _]. vm_compute in H. discriminate H. }
  split; [exact H1|]. split; [exact H2|].
  refine (proj1 (proj2 (proj2
    (proj2 (gate_executes_or_queues
              (world_of [105; 106; 107]%Q []) PowerOff 3 device_active H1 H2)
       100%Q _ _)))).
  - vm_compute. reflexivity.
  - vm_compute. reflexivity.
Defined.

(** C10, as the code has it.  In the deferred branch the delay put in the
    job and returned as queued_delay is max(0, 10 - (now - last)) for the
    clock value [now] read after the gate has decided.  It is never negative;
    it is at most 10 when the clock has not gone back behind the
    device-activity record; and it is positive exactly when [now] is still
    less than 10 seconds past that record.  The gate decided on an earlier
    clock value, so the cooldown may have run out by [now]: the clamp then
    gives a delay of 0. *)
Theorem queued_delay_clamped
    (W : World) (op : operation) (p : Z) (s : state) (last : Q)
    (Hop : op <> PowerOn)
    (Hacc : ~ rejected (fst (dispatch W op p s)))
    (Hlast : last_unifi_operation s !! p = Some last)
    (Hdef : (clock W (time_reads (accepted W (op_name op) p s)) - last < 10)%Q) :
  let r := fst (dispatch W op p s) in
  let s' := snd (dispatch W op p s) in
  let now := clock W (S (time_reads (accepted W (op_name op) p s))) in
  let delay := Qmax 0 (10 - (now - last)) in
  operation_queue s' =
    (operation_queue s
     ++ [Some {| job_port := p; job_action := op_name op;
                 job_delay := delay |}])%list
  /\ dict_get "queued_delay" r = Some (VFloat delay)
  /\ (0 <= delay)%Q
  /\ ((last <= now)%Q -> (delay <= 10)%Q)
  /\ ((0 < delay)%Q <-> (now - last < 10)%Q).
Proof.
  cbv zeta.
  destruct (gate_queue_shape W op p s last Hop Hacc Hlast Hdef) as [Hq Hr].
  split; [exact Hq|]. split; [exact Hr|].
  split; [apply Qmax_0_nonneg|]. split.
  - intros Hmono. apply Qmax_0_le; lra.
  - rewrite Qmax_0_pos_iff. split; intros H; lra.
Qed.

(** C10 at work: device call at 100, gate at 106, delay computed at 107. *)
Lemma queued_delay_clamped_witness :
  PowerCycle <> PowerOn
  /\ ~ rejected (fst (dispatch (world_of [105; 106; 107]%Q []) PowerCycle 3
                        device_active))
  /\ last_unifi_operation device_active !! 3%Z = Some 100%Q
  /\ (clock (world_of [105; 106; 107]%Q [])
        (time_reads (accepted (world_of [105; 106; 107]%Q [])
                       (op_name PowerCycle) 3 device_active)) - 100 < 10)%Q
  /\ dict_get "queued_delay"
       (fst (dispatch (world_of [105; 106; 107]%Q []) PowerCycle 3 device_active))
     = Some (VFloat 3).
Proof.
  assert (H1 : PowerCycle <> PowerOn) by discriminate.
  assert (H2 : ~ rejected (fst (dispatch (world_of [105; 106; 107]%Q [])
                                  PowerCycle 3 device_active))).
  { intros [H _]. vm_compute in H. discriminate H. }
  assert (H3 : last_unifi_operation device_active !! 3%Z = Some 100%Q)
    by (vm_compute; reflexivity).
  assert (H4 : (clock (world_of [105; 106; 107]%Q [])
                  (time_reads (accepted (world_of [105; 106; 107]%Q [])
                                 (op_name PowerCycle) 3 device_active))
                - 100 < 10)%Q) by (vm_compute; reflexivity).
  split; [exact H1|]. split; [exact H2|]. split; [exact H3|].
  split; [exact H4|].
  exact (proj1 (proj2 (queued_delay_clamped
                         (world_of [105; 106; 107]%Q []) PowerCycle 3
                         device_active 100%Q H1 H2 H3 H4))).
Defined.

(** C10 as stated fails: port 3 saw a device call at 100; power_off is
    recorded at 109, the gate reads 109.9 (less than 10 seconds: deferred),
    and the delay is computed at 110.5.  The clamp fires, and a job with
    delay 0 is queued. *)
Lemma queued_delay_zero_when_cooldown_ends :
  let W := world_of [109; 1099 # 10; 221 # 2]%Q [] in
  let r := fst (dispatch W PowerOff 3 device_active) in
  let s' := snd (dispatch W PowerOff 3 device_active) in
  dict_get "status" r = Some (VStr "queued")
  /\ operation_queue s' =
       [Some {| job_port := 3; job_action := "power_off"; job_delay := 0 |}]
  /\ dict_get "queued_delay" r = Some (VFloat 0)
  /\ ~ (0 < 0)%Q.
Proof.
  cbv zeta. split; [vm_compute; reflexivity|].
  split; [vm_compute; reflexivity|].
  split; [vm_compute; reflexivity|].
  apply Qlt_irrefl.
Qed.

(** ** Acceptance is recorded once; rejection changes nothing *)

(** C6. A power_off or power_cycle request that is rejected leaves the
    operation-record map, the device-activity map and the queue as they were
    (and sends nothing).  A request that is accepted stores, under its own
    key, the clock value read right after the check, and that is the only
    change to the operation-record map, whatever follows: immediate or
    deferred, device call succeeding or failing. *)
Theorem rejection_keeps_state_acceptance_records
    (W : World) (op : operation) (p : Z) (s : state)
    (Hop : op <> PowerOn) :
  let r := fst (dispatch W op p s) in
  let s' := snd (dispatch W op p s) in
  (rejected r ->
   last_operation_time s' = last_operation_time s
   /\ last_unifi_operation s' = last_unifi_operation s
   /\ operation_queue s' = operation_queue s
   /\ unfinished_tasks s' = unfinished_tasks s
   /\ trace s' = trace s
   /\ http_calls s' = http_calls s)
  /\ (~ rejected r ->
      last_operation_time s' =
      <[_get_operation_key p (op_name op) :=
          clock W (time_reads (checked W (op_name op) p s))]>
        (last_operation_time s)).
Proof.
  cbv zeta. rewrite (dispatch_request W op p Hop).
  rewrite rejected_iff_limited. split.
  - intros Hl.
    rewrite (power_request_limited W _ p s Hl), (limited_checked W _ p s Hl).
    rewrite run_rate_limit_response. simpl. repeat split.
  - intros Hl. apply not_true_is_false in Hl.
    destruct (gated_frame W (op_name op) p s) as (_ & _ & _ & _ & _ & _ & Hrec).
    destruct (immediate W (op_name op) p s) eqn:Hi.
    + rewrite (power_request_immediate W _ p s Hl Hi). cbn [snd].
      destruct (call_ok _); simpl; exact Hrec.
    + rewrite (power_request_queued W _ p s Hl Hi). simpl. exact Hrec.
Qed.

(** C6 at work: a rejected power_off on port 3 keeps the record at 100. *)
Lemma rejection_keeps_state_acceptance_records_witness :
  PowerOff <> PowerOn
  /\ last_operation_time
       (snd (dispatch (world_of [105; 105]%Q []) PowerOff 3 off_recorded))
     = last_operation_time off_recorded.
Proof.
  assert (H1 : PowerOff <> PowerOn) by discriminate.
  split; [exact H1|].
  refine (proj1 (proj1 (rejection_keeps_state_acceptance_records
                          (world_of [105; 105]%Q []) PowerOff 3 off_recorded H1)
                   _)).
  split; vm_compute; reflexivity.
Defined.

(** ** Device activity follows the adapter's success *)

(** [time.sleep] returns for the lengths from 0 to [sleep_max]. *)
Lemma time_sleep_returns (d : Q) :
  time_sleep d = None <-> (0 <= d <= sleep_max)%Q.
Proof.
  unfold time_sleep.
  destruct (Qlt_le_dec sleep_max d) as [H1 | H1].
  - split; [discriminate|]. intros [_ H]. exfalso. apply (Qlt_not_le _ _ H1 H).
  - destruct (Qlt_le_dec d sleep_min) as [H2 | H2].
    + split; [discriminate|]. intros [H _]. exfalso.
      unfold sleep_min in H2. lra.
    + destruct (Qlt_le_dec d 0) as [H3 | H3].
      * split; [discriminate|]. intros [H _]. exfalso. lra.
      * split; [intros _; split; assumption | reflexivity].
Qed.

(** It raises for every other length, and the text is not empty. *)
Lemma time_sleep_raises (d : Q) :
  ~ (0 <= d <= sleep_max)%Q -> exists e : string, time_sleep d = Some e.
Proof.
  intros H. destruct (time_sleep d) as [e|] eqn:E; [exists e; reflexivity|].
  exfalso. apply H, time_sleep_returns, E.
Qed.

(** One turn of the worker on a job [time.sleep] returns for. *)
Lemma run_worker_step (W : World) (j : job) (rest : list (option job))
    (s : state) :
  operation_queue s = Some j :: rest ->
  (0 <= job_delay j <= sleep_max)%Q ->
  let o := http W (http_calls s) in
  let sent :=
    tick_datetime
      (tick_http
         (add_event (power_cycle_request W (job_port j))
            (add_event
               (EvLog INFO ("Executing queued " +:+ job_action j
                            +:+ " operation for port " +:+ pretty (job_port j)))
               (add_event (EvSleep (job_delay j))
                  (set_operation_queue rest s))))) in
  queue_worker_step W s =
  (Continue,
   queue_task_done
     (add_event (worker_outcome_log o j (isoformat W (datetime_reads s)))
        (if call_ok o
         then set_last_unifi_operation (job_port j) (clock W (time_reads s))
                (tick_time sent)
         else sent))).
Proof.
  intros Hq Hd. cbv zeta.
  unfold queue_worker_step, bind, get_state. rewrite Hq.
  unfold modify at 1. cbv beta iota.
  unfold queue_worker_job, bind. cbn [job_delay job_port job_action].
  rewrite (proj2 (time_sleep_returns (job_delay j)) Hd).
  unfold emit, modify at 1 2. cbv beta iota.
  rewrite run_execute, execute_result_success. cbv beta iota.
  unfold worker_outcome_log.
  cbn [http_calls add_event set_operation_queue datetime_reads].
  destruct (call_ok (http W (http_calls s))); reflexivity.
Qed.

(** C7. A device call, made at once by power_off / power_cycle or later by
    the worker for a queued job (one whose delay [time.sleep] takes, so that
    the call is made), is one HTTP request, made once.  When it
    succeeds (HTTP 200) the device-activity entry of the port is set, once,
    to the clock value read after the call; when it fails (another status or
    an exception) the device-activity map is left as it was and no second
    request is made.  For a queued job the failure ends in a WARNING log
    line: the job is gone from the queue, nothing is put back, and the turn
    of the worker hands back only the signal to go on. *)
Theorem device_activity_follows_success
    (W : World) (op : operation) (p : Z) (s : state)
    (sw : state) (j : job) (rest : list (option job))
    (Hop : op <> PowerOn)
    (Hacc : ~ rejected (fst (dispatch W op p s)))
    (Himm : immediate W (op_name op) p s = true)
    (Hq : operation_queue sw = Some j :: rest)
    (Hd : (0 <= job_delay j <= sleep_max)%Q) :
  (let r := fst (dispatch W op p s) in
   let s' := snd (dispatch W op p s) in
   let ok := call_ok (http W (http_calls s)) in
   trace s' = (trace s ++ [power_cycle_request W p])%list
   /\ http_calls s' = S (http_calls s)
   /\ operation_queue s' = operation_queue s
   /\ dict_get "success" r = Some (VBool ok)
   /\ (ok = true ->
       last_unifi_operation s' =
       <[p := clock W (time_reads (gated W (op_name op) p s))]>
         (last_unifi_operation s))
   /\ (ok = false -> last_unifi_operation s' = last_unifi_operation s))
  /\ (let sw' := snd (queue_worker_step W sw) in
      let ok := call_ok (http W (http_calls sw)) in
      fst (queue_worker_step W sw) = Continue
      /\ operation_queue sw' = rest
      /\ http_calls sw' = S (http_calls sw)
      /\ (exists msg : string,
            trace sw' =
            (trace sw
             ++ [EvSleep (job_delay j);
                 EvLog INFO ("Executing queued " +:+ job_action j
                             +:+ " operation for port "
                             +:+ pretty (job_port j));
                 power_cycle_request W (job_port j);
                 EvLog (if ok then INFO else WARNING) msg])%list)
      /\ (ok = true ->
          last_unifi_operation sw' =
          <[job_port j := clock W (time_reads sw)]> (last_unifi_operation sw))
      /\ (ok = false -> last_unifi_operation sw' = last_unifi_operation sw)
      /\ last_operation_time sw' = last_operation_time sw).
Proof.
  split.
  - cbv zeta. revert Hacc. rewrite (dispatch_request W op p Hop).
    rewrite rejected_iff_limited. intros Hacc.
    apply not_true_is_false in Hacc.
    destruct (gated_frame W (op_name op) p s) as (Ht & Hh & _ & Hqu & _ & Hu & _).
    rewrite (power_request_immediate W _ p s Hacc Himm). cbn [fst snd].
    rewrite Hh.
    destruct (http W (http_calls s)) as [e | c]; simpl.
    + rewrite Ht, Hh, Hqu, Hu. repeat split; intros; done.
    + destruct (Z.eqb c 200); simpl; rewrite Ht, Hh, Hqu, Hu;
        repeat split; intros; done.
  - cbv zeta. rewrite (run_worker_step W j rest sw Hq Hd). cbn [fst snd].
    unfold worker_outcome_log.
    destruct (call_ok (http W (http_calls sw))); simpl;
      rewrite <- !app_assoc; simpl;
      (repeat split; [eexists; reflexivity | intros; done ..]).
Qed.

(** C7 at work: the device answers HTTP 500 to the queued job, and the
    device-activity record of port 3 stays at 100. *)
Lemma device_activity_follows_success_witness :
  PowerOff <> PowerOn
  /\ ~ rejected (fst (dispatch (world_of [200; 201; 202]%Q [Response 500])
                        PowerOff 3 device_active))
  /\ immediate (world_of [200; 201; 202]%Q [Response 500]) (op_name PowerOff) 3
       device_active = true
  /\ operation_queue one_job_queued =
     [Some {| job_port := 3; job_action := "power_off"; job_delay := 3 |}]
  /\ (0 <= 3 <= sleep_max)%Q
  /\ last_unifi_operation
       (snd (queue_worker_step (world_of [200; 201; 202]%Q [Response 500])
               one_job_queued))
     = last_unifi_operation one_job_queued.
Proof.
  assert (H1 : PowerOff <> PowerOn) by discriminate.
  assert (H2 : ~ rejected (fst (dispatch (world_of [200; 201; 202]%Q
                                            [Response 500])
                                  PowerOff 3 device_active))).
  { intros [_ H]. vm_compute in H. discriminate H. }
  assert (H3 : immediate (world_of [200; 201; 202]%Q [Response 500])
                 (op_name PowerOff) 3 device_active = true)
    by (vm_compute; reflexivity).
  assert (H4 : operation_queue one_job_queued =
               [Some {| job_port := 3; job_action := "power_off";
                        job_delay := 3 |}]) by reflexivity.
  assert (H5 : (0 <= 3 <= sleep_max)%Q)
    by (split; vm_compute; discriminate).
  split; [exact H1|]. split; [exact H2|]. split; [exact H3|].
  split; [exact H4|]. split; [exact H5|].
  refine (proj1 (proj2 (proj2 (proj2 (proj2 (proj2 (proj2
    (device_activity_follows_success
       (world_of [200; 201; 202]%Q [Response 500]) PowerOff 3 device_active
       one_job_queued _ [] H1 H2 H3 H4 H5))))))) _).
  vm_compute. reflexivity.
Defined.

(** ** Power off and power cycle up to the label *)

Lemma swap_label_involutive (a : string) : swap_label (swap_label a) = a.
Proof.
  unfold swap_label.
  destruct (String.eqb a "power_off") eqn:E1.
  - apply String.eqb_eq in E1. subst a. reflexivity.
  - destruct (String.eqb a "power_cycle") eqn:E2.
    + apply String.eqb_eq in E2. subst a. reflexivity.
    + rewrite E1, E2. reflexivity.
Qed.

Lemma swap_label_off_iff (a : string) :
  swap_label a = "power_cycle" <-> a = "power_off".
Proof.
  split.
  - intros H. rewrite <- (swap_label_involutive a), H. reflexivity.
  - intros ->. reflexivity.
Qed.

Lemma relabelled_tick_time (s1 s2 : state) :
  relabelled s1 s2 -> relabelled (tick_time s1) (tick_time s2).
Proof.
  intros (H1 & H2 & H3 & H4 & H5 & H6 & H7). unfold relabelled. simpl.
  rewrite H5. repeat split; assumption.
Qed.

Lemma relabelled_tick_datetime (s1 s2 : state) :
  relabelled s1 s2 -> relabelled (tick_datetime s1) (tick_datetime s2).
Proof.
  intros (H1 & H2 & H3 & H4 & H5 & H6 & H7). unfold relabelled. simpl.
  rewrite H6. repeat split; assumption.
Qed.

Lemma relabelled_tick_http (s1 s2 : state) :
  relabelled s1 s2 -> relabelled (tick_http s1) (tick_http s2).
Proof.
  intros (H1 & H2 & H3 & H4 & H5 & H6 & H7). unfold relabelled. simpl.
  rewrite H7. repeat split; assumption.
Qed.

Lemma relabelled_add_event (e1 e2 : event) (s1 s2 : state) :
  relabelled s1 s2 -> relabelled (add_event e1 s1) (add_event e2 s2).
Proof. intros H. exact H. Qed.

Lemma relabelled_set_last_unifi (p : Z) (t : Q) (s1 s2 : state) :
  relabelled s1 s2 ->
  relabelled (set_last_unifi_operation p t s1) (set_last_unifi_operation p t s2).
Proof.
  intros (H1 & H2 & H3 & H4 & H5 & H6 & H7). unfold relabelled. simpl.
  rewrite H4. repeat split; assumption.
Qed.

Lemma relabelled_queue_put (j : job) (s1 s2 : state) :
  relabelled s1 s2 ->
  relabelled (queue_put (Some j) s1) (queue_put (Some (swap_job j)) s2).
Proof.
  intros (H1 & H2 & H3 & H4 & H5 & H6 & H7). unfold relabelled. simpl.
  rewrite H3. split; [assumption|]. split; [|repeat split; assumption].
  apply Forall2_app; [exact H2|].
  apply List.Forall2_cons; [right; reflexivity | apply List.Forall2_nil].
Qed.

(** Recording power_off in one state and power_cycle in the other. *)
Lemma relabelled_record (p : Z) (t : Q) (s1 s2 : state) :
  relabelled s1 s2 ->
  relabelled
    (set_last_operation_time (_get_operation_key p "power_off") t s1)
    (set_last_operation_time (_get_operation_key p "power_cycle") t s2).
Proof.
  intros (H1 & H2 & H3 & H4 & H5 & H6 & H7). unfold relabelled. simpl.
  split; [|repeat split; assumption].
  intros q a.
  destruct (decide (_get_operation_key p "power_off" = _get_operation_key q a))
    as [Heq | Hne].
  - apply Key.key_inj in Heq as [<- <-]. change (swap_label "power_off")
      with "power_cycle". rewrite !lookup_insert_eq. reflexivity.
  - rewrite lookup_insert_ne by exact Hne.
    rewrite lookup_insert_ne; [apply H1|].
    intros Heq. apply Hne. apply Key.key_inj in Heq as [<- Ha].
    symmetry in Ha. apply swap_label_off_iff in Ha. subst a. reflexivity.
Qed.

Section SameAlgorithm.

Context (W : World).

(** Up to the verdict of the gate the two runs go the same way. *)
Lemma relabelled_gated (p : Z) (s1 s2 : state) :
  relabelled s1 s2 ->
  limited W "power_cycle" p s2 = limited W "power_off" p s1
  /\ relabelled (checked W "power_off" p s1) (checked W "power_cycle" p s2)
  /\ immediate W "power_cycle" p s2 = immediate W "power_off" p s1
  /\ relabelled (gated W "power_off" p s1) (gated W "power_cycle" p s2).
Proof.
  intros Hrel.
  assert (Hchk :
    _is_port_operation_rate_limited W p "power_cycle" s2 =
    (limited W "power_off" p s1, checked W "power_cycle" p s2)
    /\ relabelled (checked W "power_off" p s1) (checked W "power_cycle" p s2)).
  { unfold limited, checked. rewrite !run_is_limited.
    destruct Hrel as (H1 & H2 & H3 & H4 & H5 & H6 & H7).
    rewrite (H1 p "power_off"). change (swap_label "power_off") with "power_cycle".
    destruct (last_operation_time s2 !! _get_operation_key p "power_cycle");
      cbn [fst snd].
    - rewrite H5. split; [reflexivity|].
      apply relabelled_tick_time. repeat split; assumption.
    - split; [reflexivity|]. repeat split; assumption. }
  destruct Hchk as [Hchk Hrc].
  assert (Hl : limited W "power_cycle" p s2 = limited W "power_off" p s1).
  { unfold limited at 1. rewrite Hchk. reflexivity. }
  assert (Hra : relabelled (accepted W "power_off" p s1)
                           (accepted W "power_cycle" p s2)).
  { rewrite !accepted_eq.
    assert (Ht : time_reads (checked W "power_cycle" p s2)
                 = time_reads (checked W "power_off" p s1))
      by apply Hrc.
    rewrite Ht. apply relabelled_record, relabelled_tick_time, Hrc. }
  split; [exact Hl|]. split; [exact Hrc|].
  unfold immediate, gated. rewrite !run_can_execute.
  destruct Hra as (H1 & H2 & H3 & H4 & H5 & H6 & H7).
  rewrite H4, H5.
  destruct (last_unifi_operation (accepted W "power_off" p s1) !! p);
    cbn [fst snd].
  - split; [reflexivity|].
    apply relabelled_tick_time. repeat split; assumption.
  - split; [reflexivity|]. repeat split; assumption.
Qed.

Lemma label_swapped_refl_value (v : pyval) : label_swapped_value v v.
Proof. left. reflexivity. Qed.

Lemma label_swapped_action : label_swapped_value (VStr "power_off") (VStr "power_cycle").
Proof. right. exists "", "". split; reflexivity. Qed.

Lemma label_swapped_execute_result (o : http_outcome) (p : Z) (ts : string) :
  label_swapped (execute_result o p "power_off" ts)
                (execute_result o p "power_cycle" ts).
Proof.
  unfold label_swapped.
  destruct o as [e | c]; simpl; [|destruct (Z.eqb c 200)];
    repeat first
      [ apply List.Forall2_nil
      | apply List.Forall2_cons;
        [ split;
          [ reflexivity
          | first [apply label_swapped_refl_value | apply label_swapped_action] ]
        | ] ].
Qed.

Lemma label_swapped_rate_limit_error (n : Z) :
  label_swapped_value
    (VStr ("Rate limited. Please wait " +:+ pretty n
           +:+ " seconds before next " +:+ "power_off" +:+ " operation"))
    (VStr ("Rate limited. Please wait " +:+ pretty n
           +:+ " seconds before next " +:+ "power_cycle" +:+ " operation")).
Proof.
  right.
  exists ("Rate limited. Please wait " +:+ pretty n +:+ " seconds before next "),
         " operation".
  rewrite !Text.append_assoc. split; reflexivity.
Qed.

End SameAlgorithm.

(** Field by field: the keys are the same, the values equal or the label. *)
Ltac swapped_fields :=
  repeat first
    [ apply List.Forall2_nil
    | apply List.Forall2_cons;
      [ split;
        [ reflexivity
        | first [ apply label_swapped_refl_value
                | apply label_swapped_action
                | apply label_swapped_rate_limit_error ] ]
      | ] ].

(** The device request of the worker for a job does not depend on the
    label the job carries. *)
Lemma worker_request_for_job (W : World) (j : job) (rest : list (option job))
    (sw : state) :
  operation_queue sw = Some j :: rest ->
  (0 <= job_delay j <= sleep_max)%Q ->
  List.filter is_post (trace (snd (queue_worker_step W sw))) =
  (List.filter is_post (trace sw) ++ [power_cycle_request W (job_port j)])%list.
Proof.
  intros Hq Hd. rewrite (run_worker_step W j rest sw Hq Hd). cbn [snd].
  unfold worker_outcome_log.
  destruct (call_ok (http W (http_calls sw))); simpl;
    rewrite !List.filter_app; simpl; rewrite !app_nil_r; reflexivity.
Qed.

(** C8. [power_off_port] and [power_cycle_port] are the algorithm of
    section 4.3 at the labels power_off and power_cycle.  Run from two states
    that agree once the power_off and power_cycle keys are exchanged, under
    the same environment, the two get the same verdict of the rate limiter
    and of the cooldown gate, so they take the same branch; they return
    results with the same fields that differ only where the label stands,
    and they leave states that again agree once the keys are exchanged.
    Both issue the same device action.  On the immediate branch each sends
    the one POWER_CYCLE request for the port, and on the other branches
    neither sends anything.  On the deferred branch each appends one job to
    its queue, for the same port and with the same delay, the two differing
    in the label only; and the request the worker makes for such a job,
    whatever its label, is again the POWER_CYCLE request for the port. *)
Theorem power_off_cycle_same_up_to_label
    (W : World) (p : Z) (s1 s2 : state)
    (Hrel : relabelled s1 s2) :
  let r1 := fst (power_off_port W p s1) in
  let s1' := snd (power_off_port W p s1) in
  let r2 := fst (power_cycle_port W p s2) in
  let s2' := snd (power_cycle_port W p s2) in
  let sends :=
    negb (limited W "power_off" p s1) && immediate W "power_off" p s1 in
  let queues :=
    negb (limited W "power_off" p s1)
    && negb (immediate W "power_off" p s1) in
  let d := Qmax 0 (queued_delay W "power_off" p s1) in
  power_off_port W p = power_request W "power_off" p
  /\ power_cycle_port W p = power_request W "power_cycle" p
  /\ limited W "power_cycle" p s2 = limited W "power_off" p s1
  /\ immediate W "power_cycle" p s2 = immediate W "power_off" p s1
  /\ label_swapped r1 r2
  /\ relabelled s1' s2'
  /\ trace s1' =
       (trace s1 ++ if sends then [power_cycle_request W p] else [])%list
  /\ trace s2' =
       (trace s2 ++ if sends then [power_cycle_request W p] else [])%list
  /\ operation_queue s1' =
       (operation_queue s1
        ++ if queues
           then [Some {| job_port := p; job_action := "power_off";
                         job_delay := d |}]
           else [])%list
  /\ operation_queue s2' =
       (operation_queue s2
        ++ if queues
           then [Some {| job_port := p; job_action := "power_cycle";
                         job_delay := d |}]
           else [])%list
  /\ (forall (label : string) (sw : state) (rest : list (option job)),
        operation_queue sw =
          Some {| job_port := p; job_action := label; job_delay := d |}
          :: rest ->
        (d <= sleep_max)%Q ->
        posts (trace (snd (queue_worker_step W sw))) =
        (posts (trace sw) ++ [power_cycle_request W p])%list).
Proof.
  cbv zeta. split; [reflexivity|]. split; [reflexivity|].
  rewrite power_off_port_request, power_cycle_port_request.
  destruct (relabelled_gated W p s1 s2 Hrel) as (Hl & Hrc & Hi & Hrg).
  split; [exact Hl|]. split; [exact Hi|].
  assert (Hworker :
    forall (label : string) (sw : state) (rest : list (option job)),
      operation_queue sw =
        Some {| job_port := p; job_action := label;
                job_delay := Qmax 0 (queued_delay W "power_off" p s1) |}
        :: rest ->
      (Qmax 0 (queued_delay W "power_off" p s1) <= sleep_max)%Q ->
      posts (trace (snd (queue_worker_step W sw))) =
      (posts (trace sw) ++ [power_cycle_request W p])%list).
  { intros label sw rest Hq Hmax. unfold posts.
    apply (worker_request_for_job W _ rest sw Hq). simpl.
    split; [apply Qmax_0_nonneg | exact Hmax]. }
  destruct (gated_frame W "power_off" p s1) as (Ht1 & Hh1 & Hd1 & Hq1 & _ & Hu1 & _).
  destruct (gated_frame W "power_cycle" p s2) as (Ht2 & Hh2 & Hd2 & Hq2 & _ & Hu2 & _).
  destruct (limited W "power_off" p s1) eqn:Hl1.
  - (* both rejected *)
    rewrite (power_request_limited W _ p s1 Hl1), (power_request_limited W _ p s2 Hl).
    rewrite (limited_checked W _ p s1 Hl1), (limited_checked W _ p s2 Hl).
    rewrite !run_rate_limit_response. cbn [fst snd negb andb].
    pose proof Hrel as (H1 & H2 & H3 & H4 & H5 & H6 & H7).
    cbn [last_operation_time time_reads datetime_reads tick_time].
    rewrite (H1 p "power_off"), H5, H6.
    change (swap_label "power_off") with "power_cycle".
    split; [unfold label_swapped; swapped_fields|].
    split.
    { apply relabelled_tick_datetime, relabelled_tick_time,
        relabelled_tick_time, Hrel. }
    rewrite !app_nil_r. simpl. repeat split; assumption.
  - destruct (immediate W "power_off" p s1) eqn:Hi1.
    + (* both sent at once *)
      rewrite (power_request_immediate W _ p s1 Hl1 Hi1),
              (power_request_immediate W _ p s2 Hl Hi).
      cbn [fst snd negb andb].
      assert (Hh : http_calls (gated W "power_cycle" p s2)
                   = http_calls (gated W "power_off" p s1)) by apply Hrg.
      assert (Hd : datetime_reads (gated W "power_cycle" p s2)
                   = datetime_reads (gated W "power_off" p s1)) by apply Hrg.
      assert (Htr : time_reads (gated W "power_cycle" p s2)
                    = time_reads (gated W "power_off" p s1)) by apply Hrg.
      rewrite Hh, Hd.
      split; [apply label_swapped_execute_result|].
      rewrite !app_nil_r.
      destruct (call_ok (http W (http_calls (gated W "power_off" p s1)))).
      * split.
        { cbn [time_reads tick_datetime tick_http add_event]. rewrite Htr.
          apply relabelled_set_last_unifi, relabelled_tick_time,
            relabelled_tick_datetime, relabelled_tick_http,
            relabelled_add_event, Hrg. }
        simpl. rewrite Ht1, Ht2, Hq1, Hq2. repeat split; assumption.
      * split.
        { apply relabelled_tick_datetime, relabelled_tick_http,
            relabelled_add_event, Hrg. }
        simpl. rewrite Ht1, Ht2, Hq1, Hq2. repeat split; assumption.
    + (* both queued *)
      rewrite (power_request_queued W _ p s1 Hl1 Hi1),
              (power_request_queued W _ p s2 Hl Hi).
      cbn [fst snd negb andb].
      assert (Hq : queued_delay W "power_cycle" p s2
                   = queued_delay W "power_off" p s1).
      { unfold queued_delay.
        assert (Htr : time_reads (gated W "power_cycle" p s2)
                      = time_reads (gated W "power_off" p s1)) by apply Hrg.
        assert (Hu : last_unifi_operation s2 = last_unifi_operation s1)
          by apply Hrel.
        rewrite Htr, Hu. reflexivity. }
      assert (Hd : datetime_reads s2 = datetime_reads s1) by apply Hrel.
      rewrite Hq, Hd.
      split; [unfold label_swapped; swapped_fields|].
      split.
      { apply relabelled_tick_datetime.
        apply (relabelled_queue_put
                 {| job_port := p; job_action := "power_off";
                    job_delay := Qmax 0 (queued_delay W "power_off" p s1) |}).
        apply relabelled_tick_time, Hrg. }
      rewrite !app_nil_r. simpl. rewrite Ht1, Ht2, Hq1, Hq2.
      repeat split; assumption.
Qed.

Lemma relabelled_init : relabelled init init.
Proof.
  unfold relabelled. simpl.
  split; [intros q a; rewrite !lookup_empty; reflexivity|].
  split; [apply List.Forall2_nil | repeat split].
Qed.

(** A state is in the relation with itself when neither of the two keys
    has a record, whatever its queue holds. *)
Lemma relabelled_same_queue (j : job) :
  relabelled (queue_put (Some j) device_active)
             (queue_put (Some j) device_active).
Proof.
  unfold relabelled. simpl.
  split; [intros q a; rewrite !lookup_empty; reflexivity|].
  split; [|repeat split].
  apply List.Forall2_cons; [left; reflexivity | apply List.Forall2_nil].
Qed.

(** C8 at work: no record for either key, the same job in both queues
    and the last device call on port 3 long past.  Both requests go to the
    device at once, and each sends the POWER_CYCLE request for port 3. *)
Lemma power_off_cycle_same_up_to_label_witness :
  relabelled one_job_queued one_job_queued
  /\ trace (snd (power_off_port (world_of [200; 201; 202]%Q []) 3
                   one_job_queued))
     = [power_cycle_request (world_of [200; 201; 202]%Q []) 3]
  /\ trace (snd (power_cycle_port (world_of [200; 201; 202]%Q []) 3
                   one_job_queued))
     = [power_cycle_request (world_of [200; 201; 202]%Q []) 3].
Proof.
  assert (H : relabelled one_job_queued one_job_queued)
    by apply relabelled_same_queue.
  split; [exact H|].
  pose proof (power_off_cycle_same_up_to_label
                (world_of [200; 201; 202]%Q []) 3
                one_job_queued one_job_queued H)
    as (_ & _ & _ & _ & _ & _ & H1 & H2 & _).
  split; [exact H1 | exact H2].
Defined.

(** ** Two requests at once *)

Section TwoRequests.

Context (W : World).

(** Left alone, a handler runs its method. *)
Lemma thread_alone (a : string) (p : Z) (s : state) :
  (c1 ← thread_step W a p AtCheck;
   c2 ← thread_step W a p c1;
   thread_step W a p c2) s
  = (Done (fst (power_request W a p s)), snd (power_request W a p s)).
Proof.
  unfold power_request, thread_step, bind, ret.
  destruct (_is_port_operation_rate_limited W p a s) as [[|] s1]; cbv iota.
  - destruct (_get_rate_limit_response W p a s1) as [r s2]. reflexivity.
  - destruct (_record_port_operation W p a s1) as [[] s2].
    destruct (complete_request W a p s2) as [r s3]. reflexivity.
Qed.

(** An accepted request leaves its record behind. *)
Lemma accepted_leaves_record (a : string) (p : Z) (s : state) :
  limited W a p s = false ->
  last_operation_time (snd (power_request W a p s)) !! _get_operation_key p a
  = Some (clock W (time_reads (checked W a p s))).
Proof.
  intros Hl.
  destruct (gated_frame W a p s) as (_ & _ & _ & _ & _ & _ & Hrec).
  assert (H : last_operation_time (snd (power_request W a p s))
              = last_operation_time (gated W a p s)).
  { destruct (immediate W a p s) eqn:Hi.
    - rewrite (power_request_immediate W a p s Hl Hi). cbn [snd].
      destruct (call_ok _); reflexivity.
    - rewrite (power_request_queued W a p s Hl Hi). reflexivity. }
  rewrite H, Hrec. apply lookup_insert_eq.
Qed.












End TwoRequests.





(** ** The server call by call *)

Lemma well_queued_put (a : string) (p : Z) (d : Q) (q : list (option job)) :
  Forall well_queued q ->
  Forall well_queued
    (q ++ [Some {| job_port := p; job_action := a; job_delay := Qmax 0 d |}]).
Proof.
  intros Hq. apply Forall_app. split; [exact Hq|].
  apply Forall_cons. split; [|apply Forall_nil; exact I].
  eexists. split; [reflexivity|]. simpl. apply Qmax_0_nonneg.
Qed.

(** What the last call of an accepted request does to the trace, the queue
    and its count: one device request and nothing queued, or no request and
    one job queued. *)
Lemma complete_request_effect (W : World) (a : string) (p : Z) (s : state) :
  let s' := snd (complete_request W a p s) in
  (trace s' = trace s
   \/ trace s' = (trace s ++ [power_cycle_request W p])%list)
  /\ (operation_queue s' = operation_queue s
      /\ unfinished_tasks s' = unfinished_tasks s
      \/ exists d : Q,
           operation_queue s' =
             (operation_queue s
              ++ [Some {| job_port := p; job_action := a;
                          job_delay := Qmax 0 d |}])%list
           /\ unfinished_tasks s' = S (unfinished_tasks s)).
Proof.
  cbv zeta.
  assert (Himm : forall s0 : state,
    trace s0 = trace s -> operation_queue s0 = operation_queue s ->
    unfinished_tasks s0 = unfinished_tasks s ->
    let s' :=
      snd (let '(result, s1) := _execute_power_cycle W p a s0 in
           let '(_, s2) :=
             (if subscript_true result "success"
              then (fun s => let '(now, s') := time_time W s in
                             modify (set_last_unifi_operation p now) s')
              else ret tt) s1 in
           ret result s2) in
    trace s' = (trace s ++ [power_cycle_request W p])%list
    /\ operation_queue s' = operation_queue s
    /\ unfinished_tasks s' = unfinished_tasks s).
  { intros s0 Ht Hq Hu. cbv zeta. rewrite run_execute. cbv beta iota.
    rewrite execute_result_success.
    destruct (call_ok (http W (http_calls s0)));
      unfold time_time, modify, ret; cbv beta iota; cbn [fst snd];
      simpl; rewrite Ht, Hq, Hu; repeat split. }
  unfold complete_request, bind. rewrite run_can_execute.
  destruct (last_unifi_operation s !! p) as [last|].
  - destruct (Qlt_le_dec (clock W (time_reads s) - last) unifi_cooldown).
    + cbn [fst snd]. split; [left; reflexivity|].
      right. eexists. split; reflexivity.
    + destruct (Himm (tick_time s) eq_refl eq_refl eq_refl) as (Ht & Hq & Hu).
      split; [right; exact Ht | left; split; assumption].
  - destruct (Himm s eq_refl eq_refl eq_refl) as (Ht & Hq & Hu).
    split; [right; exact Ht | left; split; assumption].
Qed.

(** What one call of a handler does to the trace, the queue and its
    count. *)
Lemma handler_call_effect (W : World) (op : operation) (p : Z) (c : pc)
    (s : state) :
  let s' := snd (handler_call W op p c s) in
  (trace s' = trace s
   \/ trace s' = (trace s ++ [power_cycle_request W p])%list)
  /\ (operation_queue s' = operation_queue s
      /\ unfinished_tasks s' = unfinished_tasks s
      \/ exists d : Q,
           operation_queue s' =
             (operation_queue s
              ++ [Some {| job_port := p; job_action := op_name op;
                          job_delay := Qmax 0 d |}])%list
           /\ unfinished_tasks s' = S (unfinished_tasks s)).
Proof.
  cbv zeta.
  assert (Hstep : forall a : string,
    let s' := snd (thread_step W a p c s) in
    (trace s' = trace s
     \/ trace s' = (trace s ++ [power_cycle_request W p])%list)
    /\ (operation_queue s' = operation_queue s
        /\ unfinished_tasks s' = unfinished_tasks s
        \/ exists d : Q,
             operation_queue s' =
               (operation_queue s
                ++ [Some {| job_port := p; job_action := a;
                            job_delay := Qmax 0 d |}])%list
             /\ unfinished_tasks s' = S (unfinished_tasks s))).
  { intros a. cbv zeta. destruct c; unfold thread_step, bind, ret.
    - rewrite run_is_limited.
      destruct (last_operation_time s !! _get_operation_key p a);
        cbn [fst snd]; split; left; repeat split.
    - rewrite run_rate_limit_response. cbn [fst snd]. split; left; repeat split.
    - rewrite run_record. cbn [fst snd]. split; left; repeat split.
    - pose proof (complete_request_effect W a p s) as H. cbv zeta in H.
      destruct (complete_request W a p s) as [r s1]. exact H.
    - cbn [fst snd]. split; left; repeat split. }
  destruct op; [|apply Hstep|apply Hstep].
  unfold handler_call.
  destruct c; unfold bind, ret; simpl; split; left; repeat split.
Qed.

(** Any actions, in any order, lead from a state of the server to a state
    of the server. *)
Lemma reachable_run (W : World) (actions : list action) :
  forall sys : system, reachable W sys -> reachable W (run W actions sys).
Proof.
  induction actions as [| a rest IH]; intros sys H; [exact H|].
  apply IH. apply reach_step. exact H.
Qed.

(** What every state of the server has. *)
Lemma reachable_invariant (W : World) (sys : system) :
  reachable W sys ->
  Forall well_queued (operation_queue (shared sys))
  /\ unfinished_tasks (shared sys) =
       (length (operation_queue (shared sys)) + held (worker sys))%nat
  /\ Forall (expected_event W) (trace (shared sys))
  /\ worker sys <> Stopped.
Proof.
  induction 1 as [| a sys _ (Hw & Hu & He & Hs)].
  - simpl. repeat split; try (apply Forall_nil; exact I). discriminate.
  - destruct a as [op p | i | | p]; cbn [step].
    + (* a request comes in *)
      repeat split; assumption.
    + (* a call of a handler *)
      destruct (handlers sys !! i) as [h|]; [|repeat split; assumption].
      cbn [shared worker].
      destruct (handler_call_effect W (h_op h) (h_port h) (h_pc h) (shared sys))
        as [Htr Hqu].
      split; [|split; [|split]].
      * destruct Hqu as [[-> _] | (d & -> & _)]; [exact Hw|].
        apply well_queued_put; exact Hw.
      * destruct Hqu as [[-> ->] | (d & -> & ->)]; [exact Hu|].
        rewrite length_app. simpl. lia.
      * destruct Htr as [-> | ->]; [exact He|].
        apply Forall_app. split; [exact He|].
        apply Forall_cons.
        split; [eexists; reflexivity | apply Forall_nil; exact I].
      * exact Hs.
    + (* a call of the worker *)
      cbn [shared worker].
      destruct (worker sys) as [| j | j | j result | e | |] eqn:Hc;
        cbn [held] in Hu.
      * unfold worker_call, bind, get_state.
        destruct (operation_queue (shared sys)) as [| [j |] rest] eqn:Hq.
        -- cbn [fst snd ret]. rewrite Hq. repeat split; assumption.
        -- apply Forall_cons in Hw as [_ Hw]. simpl in Hu |- *.
           repeat split; try assumption; [lia | discriminate].
        -- apply Forall_cons in Hw as [(j & Hj & _) _]. discriminate Hj.
      * unfold worker_call.
        destruct (time_sleep (job_delay j)) eqn:Hts.
        -- cbn [fst snd ret held]. repeat split; try assumption. discriminate.
        -- apply time_sleep_returns in Hts. simpl.
           repeat split; try assumption; [|discriminate].
           apply Forall_app. split; [exact He|].
           apply Forall_cons. split; [exact Hts | apply Forall_nil; exact I].
      * unfold worker_call, bind, emit, modify. cbv beta iota.
        rewrite run_execute. simpl.
        repeat split; try assumption; [|discriminate].
        rewrite <- app_assoc. apply Forall_app. split; [exact He|].
        apply Forall_cons. split; [exact I|].
        apply Forall_cons.
        split; [eexists; reflexivity | apply Forall_nil; exact I].
      * unfold worker_call, bind.
        destruct (subscript_true result "success"); simpl;
          (repeat split; try assumption; [|discriminate]);
          (apply Forall_app; split; [exact He|]);
          (apply Forall_cons; split; [exact I | apply Forall_nil; exact I]).
      * simpl. repeat split; try assumption; [|discriminate].
        apply Forall_app. split; [exact He|].
        apply Forall_cons. split; [exact I | apply Forall_nil; exact I].
      * simpl. repeat split; try assumption; [lia | discriminate].
      * exfalso. apply Hs. reflexivity.
    + (* a status query *)
      simpl. repeat split; assumption.
Qed.

(** X1. In every state of the server, whatever requests have come in and
    however the calls of their handlers and of the worker have followed one
    another, each item of the queue is a job whose delay is not negative:
    the queue never holds the shutdown signal, and no queued delay is one
    that [time.sleep] refuses as negative. *)
Theorem reachable_queue_well_formed (W : World) (sys : system)
    (Hreach : reachable W sys) :
  Forall well_queued (operation_queue (shared sys)).
Proof. exact (proj1 (reachable_invariant W sys Hreach)). Qed.

(** X1 at work: after a power_cycle sent at once and a power_off that is
    deferred, the queue holds one job with a delay of 8 seconds. *)
Lemma reachable_queue_well_formed_witness :
  reachable (world_of [0; 0; 2; 2; 2]%Q [])
    (run (world_of [0; 0; 2; 2; 2]%Q [])
       [Arrive PowerCycle 3; HandlerCall 0; HandlerCall 0; HandlerCall 0;
        Arrive PowerOff 3; HandlerCall 1; HandlerCall 1; HandlerCall 1]
       boot)
  /\ Forall well_queued
       [Some {| job_port := 3; job_action := "power_off"; job_delay := 8 |}].
Proof.
  assert (H : reachable (world_of [0; 0; 2; 2; 2]%Q [])
                (run (world_of [0; 0; 2; 2; 2]%Q [])
                   [Arrive PowerCycle 3; HandlerCall 0; HandlerCall 0;
                    HandlerCall 0; Arrive PowerOff 3; HandlerCall 1;
                    HandlerCall 1; HandlerCall 1]
                   boot))
    by (apply reachable_run, reach_boot).
  split; [exact H|].
  exact (reachable_queue_well_formed _ _ H).
Defined.


Lemma posts_app (t u : list event) : posts (t ++ u) = (posts t ++ posts u)%list.
Proof. unfold posts. apply List.filter_app. Qed.

(** The scenario of section 8 of the specification.  At t = 0
    power_cycle on port 3 is sent at once ("cycling"); at t = 2 power_off on
    port 3 is queued with a delay of 8 seconds; at t = 3 a second power_off
    on port 3 is rejected with retry_after = 29. *)
Example section_8_scenario :
  let W := world_of [0; 0; 2; 2; 2; 3; 3]%Q [] in
  let one := power_cycle_port W 3 init in
  let two := power_off_port W 3 (snd one) in
  let three := power_off_port W 3 (snd two) in
  dict_get "status" (fst one) = Some (VStr "cycling")
  /\ dict_get "status" (fst two) = Some (VStr "queued")
  /\ dict_get "queued_delay" (fst two) = Some (VFloat 8)
  /\ rejected (fst three)
  /\ dict_get "retry_after" (fst three) = Some (VInt 29)
  /\ dict_get "status" (fst (get_port_status W 3 (snd three)))
     = Some (VStr "status: stopped").
Proof.
  cbv zeta. unfold rejected. repeat split; vm_compute; reflexivity.
Qed.

(** * More of the controller *)

(** ** Operation keys *)

(** X5. The key of [_get_operation_key] names its port and operation: two
    keys are equal only for the same port and the same operation text,
    whatever the text (a colon in it included) and whatever the sign of the
    port.  So the records of different pairs never overwrite one another. *)
Theorem operation_key_names_one_pair (p p' : Z) (o o' : string) (t : Q)
    (m : gmap string Q) :
  (_get_operation_key p o = _get_operation_key p' o' <-> p = p' /\ o = o')
  /\ ((p, o) <> (p', o') ->
      <[_get_operation_key p' o' := t]> m !! _get_operation_key p o
      = m !! _get_operation_key p o).
Proof.
  split.
  - split; [apply Key.key_inj | intros [-> ->]; reflexivity].
  - intros Hne. apply lookup_insert_ne. intros Heq.
    apply Key.key_inj in Heq as [-> ->]. apply Hne. reflexivity.
Qed.

(** ** The worker on any queue *)

(** One turn of the worker on a job for which [time.sleep] raises: the
    [except] clause logs the error and marks the job done. *)
Lemma run_worker_step_raises (W : World) (j : job) (rest : list (option job))
    (s : state) (e : string) :
  operation_queue s = Some j :: rest ->
  time_sleep (job_delay j) = Some e ->
  queue_worker_step W s =
  (Continue,
   queue_task_done
     (add_event (EvLog ERROR ("Error in queue worker: " +:+ e))
        (set_operation_queue rest s))).
Proof.
  intros Hq Hd.
  unfold queue_worker_step, bind, get_state. rewrite Hq.
  unfold modify at 1. cbv beta iota.
  unfold queue_worker_job, bind. cbn [job_delay job_port job_action].
  rewrite Hd. reflexivity.
Qed.

Lemma bind_run {A B : Type} (m : M A) (f : A -> M B) (s s' : state) (a : A) :
  m s = (a, s') -> bind m f s = f a s'.
Proof. intros H. unfold bind. rewrite H. reflexivity. Qed.

(** Left alone on a job, the worker makes the turn of the loop: five calls
    when [time.sleep] returns, four when it raises. *)
Lemma worker_calls_make_turn (W : World) (j : job) (rest : list (option job))
    (s : state) :
  operation_queue s = Some j :: rest ->
  (c1 ← worker_call W AtGet;
   c2 ← worker_call W c1;
   c3 ← worker_call W c2;
   if sleepable j
   then c4 ← worker_call W c3; worker_call W c4
   else worker_call W c3) s
  = (AtGet, snd (queue_worker_step W s)).
Proof.
  intros Hq. unfold sleepable.
  erewrite bind_run;
    [|unfold worker_call, bind, get_state; rewrite Hq; reflexivity].
  destruct (time_sleep (job_delay j)) as [e|] eqn:Hts.
  - rewrite (run_worker_step_raises W j rest s e Hq Hts). cbn [snd].
    erewrite bind_run; [|unfold worker_call; rewrite Hts; reflexivity].
    erewrite bind_run; [|reflexivity].
    reflexivity.
  - pose proof Hts as Hd. apply time_sleep_returns in Hd.
    rewrite (run_worker_step W j rest s Hq Hd). cbn [snd].
    erewrite bind_run; [|unfold worker_call; rewrite Hts; reflexivity].
    erewrite bind_run;
      [|unfold worker_call, bind, emit, modify; cbv beta iota;
        rewrite run_execute; reflexivity].
    cbn [http_calls add_event set_operation_queue datetime_reads].
    unfold worker_outcome_log.
    destruct (call_ok (http W (http_calls s))) eqn:Hok;
      (erewrite bind_run;
       [|unfold worker_call; rewrite execute_result_success, Hok;
         reflexivity]);
      reflexivity.
Qed.

(** What one turn on a job leaves behind, whatever the job. *)
Lemma worker_turn_on_job (W : World) (j : job) (rest : list (option job))
    (s : state) :
  operation_queue s = Some j :: rest ->
  fst (queue_worker_step W s) = Continue
  /\ operation_queue (snd (queue_worker_step W s)) = rest
  /\ unfinished_tasks (snd (queue_worker_step W s)) = pred (unfinished_tasks s)
  /\ last_operation_time (snd (queue_worker_step W s)) = last_operation_time s
  /\ posts (trace (snd (queue_worker_step W s))) =
       (posts (trace s)
        ++ (if sleepable j then [power_cycle_request W (job_port j)] else []))%list
  /\ http_calls (snd (queue_worker_step W s)) =
       (http_calls s + (if sleepable j then 1 else 0))%nat.
Proof.
  intros Hq. unfold sleepable.
  destruct (time_sleep (job_delay j)) as [e|] eqn:Hts.
  - rewrite (run_worker_step_raises W j rest s e Hq Hts). cbn [fst snd].
    simpl. rewrite posts_app, app_nil_r. simpl. rewrite app_nil_r.
    repeat split. lia.
  - apply time_sleep_returns in Hts.
    rewrite (run_worker_step W j rest s Hq Hts). cbn [fst snd].
    unfold worker_outcome_log.
    destruct (call_ok (http W (http_calls s))); simpl;
      rewrite !posts_app; simpl; rewrite !app_nil_r;
      repeat split; lia.
Qed.

(** The worker runs through the jobs at the head of the queue, one turn
    each, and stands then before what follows them. *)
Lemma worker_runs_jobs (W : World) (jobs : list job) :
  forall (s : state) (q : list (option job)) (fuel : nat),
    operation_queue s = (map Some jobs ++ q)%list ->
    exists s1 : state,
      queue_worker W (length jobs + fuel) s = queue_worker W fuel s1
      /\ operation_queue s1 = q
      /\ last_operation_time s1 = last_operation_time s
      /\ posts (trace s1) =
           (posts (trace s)
            ++ map (fun j => power_cycle_request W (job_port j))
                 (List.filter sleepable jobs))%list
      /\ http_calls s1 =
           (http_calls s + length (List.filter sleepable jobs))%nat.
Proof.
  induction jobs as [| j js IH]; intros s q fuel Hq.
  - exists s. simpl in Hq. simpl. rewrite app_nil_r.
    repeat split; [exact Hq | lia].
  - simpl in Hq.
    destruct (worker_turn_on_job W j (map Some js ++ q)%list s Hq)
      as (Hsig & Hq1 & _ & Hrec & Hp & Hh).
    destruct (IH (snd (queue_worker_step W s)) q fuel Hq1)
      as (s1 & Hrun & Hq2 & Hrec2 & Hp2 & Hh2).
    exists s1.
    split.
    { change (queue_worker W (length (j :: js) + fuel) s)
        with (bind (queue_worker_step W)
                (fun sig => match sig with
                            | Continue => queue_worker W (length js + fuel)
                            | _ => ret sig
                            end) s).
      unfold bind at 1.
      destruct (queue_worker_step W s) as [sig s0]. cbn [fst snd] in *.
      subst sig. exact Hrun. }
    split; [exact Hq2|]. split; [rewrite Hrec2; exact Hrec|].
    rewrite Hp2, Hh2, Hp, Hh. simpl.
    destruct (sleepable j); simpl; rewrite <- ?app_assoc, ?app_nil_r; simpl;
      split; first [reflexivity | lia].
Qed.




(** X3. The shutdown signal ends the worker.  When [None] stands in the
    queue behind some jobs, the worker runs those jobs, takes the signal and
    leaves the loop: however many more turns it is given, what was queued
    behind the signal stays in the queue and gets no device request. *)
Theorem queue_worker_stops_at_signal (W : World) (jobs : list job)
    (behind : list (option job)) (s : state) (more : nat)
    (Hq : operation_queue s = (map Some jobs ++ None :: behind)%list) :
  let s' := snd (queue_worker W (length jobs + S more) s) in
  fst (queue_worker W (length jobs + S more) s) = Shutdown
  /\ operation_queue s' = behind
  /\ posts (trace s') =
       (posts (trace s)
        ++ map (fun j => power_cycle_request W (job_port j))
             (List.filter sleepable jobs))%list
  /\ http_calls s' = (http_calls s + length (List.filter sleepable jobs))%nat.
Proof.
  cbv zeta.
  destruct (worker_runs_jobs W jobs s (None :: behind) (S more) Hq)
    as (s1 & Hrun & Hq1 & _ & Hp & Hh).
  rewrite Hrun.
  change (queue_worker W (S more) s1)
    with (bind (queue_worker_step W)
            (fun sig => match sig with
                        | Continue => queue_worker W more
                        | _ => ret sig
                        end) s1).
  assert (Hstep : queue_worker_step W s1 = (Shutdown, set_operation_queue behind s1)).
  { unfold queue_worker_step, bind, get_state. rewrite Hq1. reflexivity. }
  unfold bind. rewrite Hstep. unfold ret. cbn [fst snd].
  simpl. repeat split; assumption.
Qed.

(** X3 at work: the signal stands before the job for port 3, and ten turns
    do not reach that job. *)
Lemma queue_worker_stops_at_signal_witness :
  operation_queue
    (queue_put (Some {| job_port := 3; job_action := "power_off";
                        job_delay := 3 |})
       (queue_put None init))
  = (map Some [] ++ [None; Some {| job_port := 3; job_action := "power_off";
                                   job_delay := 3 |}])%list
  /\ http_calls (snd (queue_worker (steady_world 50) 10
       (queue_put (Some {| job_port := 3; job_action := "power_off";
                           job_delay := 3 |})
          (queue_put None init)))) = 0%nat.
Proof.
  assert (H : operation_queue
                (queue_put (Some {| job_port := 3; job_action := "power_off";
                                    job_delay := 3 |})
                   (queue_put None init))
              = (map Some [] ++ [None; Some {| job_port := 3;
                                               job_action := "power_off";
                                               job_delay := 3 |}])%list)
    by reflexivity.
  split; [exact H|].
  exact (proj2 (proj2 (proj2
    (queue_worker_stops_at_signal (steady_world 50) [] _ _ 9 H)))).
Defined.

(** ** What a run keeps *)



(** ** Requests one after another *)

(** The operation records after a power_off or power_cycle request. *)
Lemma request_records (W : World) (a : string) (p : Z) (s : state) :
  last_operation_time (snd (power_request W a p s)) =
  if limited W a p s then last_operation_time s
  else <[_get_operation_key p a := clock W (time_reads (checked W a p s))]>
         (last_operation_time s).
Proof.
  destruct (gated_frame W a p s) as (_ & _ & _ & _ & _ & _ & Hrec).
  destruct (limited W a p s) eqn:Hl.
  - rewrite (power_request_limited W a p s Hl), (limited_checked W a p s Hl).
    reflexivity.
  - destruct (immediate W a p s) eqn:Hi.
    + rewrite (power_request_immediate W a p s Hl Hi). cbn [snd].
      destruct (call_ok _); simpl; exact Hrec.
    + rewrite (power_request_queued W a p s Hl Hi). simpl. exact Hrec.
Qed.

(** X6. The window runs from the last accepted request.  After a
    power_off / power_cycle request was accepted and recorded at clock value
    [t], the next request for the same port and operation is rejected
    exactly when the clock value its check reads is less than 30 seconds
    past [t]; and when it is rejected, the request after it is again judged
    against [t]: a rejected request does not restart the window. *)
Theorem window_runs_from_last_acceptance
    (W : World) (op : operation) (p : Z) (s : state)
    (Hop : op <> PowerOn)
    (Hacc : ~ rejected (fst (dispatch W op p s))) :
  let t := clock W (time_reads (checked W (op_name op) p s)) in
  let s1 := snd (dispatch W op p s) in
  let s2 := snd (dispatch W op p s1) in
  (rejected (fst (dispatch W op p s1)) <-> (clock W (time_reads s1) - t < 30)%Q)
  /\ (rejected (fst (dispatch W op p s1)) ->
      (rejected (fst (dispatch W op p s2))
       <-> (clock W (time_reads s2) - t < 30)%Q)).
Proof.
  cbv zeta. revert Hacc. rewrite !(dispatch_request W op p Hop).
  rewrite !rejected_iff_limited. intros Hacc.
  apply not_true_is_false in Hacc.
  pose proof (accepted_leaves_record W (op_name op) p s Hacc) as Hrec.
  assert (Hiff : forall u : state,
            last_operation_time u !! _get_operation_key p (op_name op)
            = Some (clock W (time_reads (checked W (op_name op) p s))) ->
            limited W (op_name op) p u = true
            <-> (clock W (time_reads u)
                 - clock W (time_reads (checked W (op_name op) p s)) < 30)%Q).
  { intros u Hu. rewrite limited_iff. split.
    - intros (last & Hlast & Hlt). rewrite Hu in Hlast.
      injection Hlast as <-. exact Hlt.
    - intros Hlt. eexists. split; [exact Hu | exact Hlt]. }
  split; [apply Hiff, Hrec|].
  intros Hl. apply Hiff. rewrite request_records, Hl. exact Hrec.
Qed.

(** X6 at work: accepted at 100, asked again at 105 and at 110. *)
Lemma window_runs_from_last_acceptance_witness :
  PowerOff <> PowerOn
  /\ ~ rejected (fst (dispatch (world_of [100; 100; 105; 105; 110; 110]%Q [])
                        PowerOff 3 init))
  /\ rejected
       (fst (dispatch (world_of [100; 100; 105; 105; 110; 110]%Q []) PowerOff 3
          (snd (dispatch (world_of [100; 100; 105; 105; 110; 110]%Q [])
                  PowerOff 3 init)))).
Proof.
  assert (H1 : PowerOff <> PowerOn) by discriminate.
  assert (H2 : ~ rejected
                 (fst (dispatch (world_of [100; 100; 105; 105; 110; 110]%Q [])
                         PowerOff 3 init))).
  { intros [H _]. vm_compute in H. discriminate H. }
  split; [exact H1|]. split; [exact H2|].
  apply (proj1 (window_runs_from_last_acceptance
                  (world_of [100; 100; 105; 105; 110; 110]%Q [])
                  PowerOff 3 init H1 H2)).
  vm_compute. reflexivity.
Defined.

(** ** Status after requests *)

Lemma status_text (W : World) (p : Z) (s : state) :
  dict_get "status" (fst (get_port_status W p s)) =
  Some (VStr (if Qlt_le_dec (recorded s p PowerOn) (recorded s p PowerOff)
              then "status: stopped" else "status: running")).
Proof.
  unfold get_port_status, bind, get_state, recorded, _get_operation_key. simpl.
  destruct (Qlt_le_dec _ _); reflexivity.
Qed.

(** The timestamp recorded for an operation after a record is stored. *)
Lemma recorded_after_store (p q : Z) (op : operation) (a : string) (t : Q)
    (s s' : state) :
  last_operation_time s' = <[_get_operation_key q a := t]> (last_operation_time s) ->
  recorded s' p op =
  if decide (q = p /\ a = op_name op) then t else recorded s p op.
Proof.
  intros Hs. unfold recorded. rewrite Hs.
  destruct (decide (q = p /\ a = op_name op)) as [[-> ->] | Hne].
  - rewrite lookup_insert_eq. reflexivity.
  - rewrite lookup_insert_ne; [reflexivity|].
    intros Heq. apply Key.key_inj in Heq. exact (Hne Heq).
Qed.

(** Settle a test of two keys whose operations are known. *)
Ltac same_key :=
  match goal with
  | |- context [decide (?a = ?b /\ ?x = ?y)] =>
      let H1 := fresh in let H2 := fresh in let Hn := fresh in
      destruct (decide (a = b /\ x = y)) as [[H1 H2] | Hn];
      simpl in *;
      first [ discriminate
            | contradiction
            | exfalso; apply Hn; split; reflexivity
            | reflexivity
            | idtac ]
  end.

(** X7. The status follows the accepted power_off and the power_on
    requests, and nothing else.
    - A power_cycle request on any port leaves the status of every port as
      it was: status inference does not read power_cycle records.
    - A power_on or power_off request on another port leaves the status of
      this port as it was, and so does a rejected power_off on this port.
    - After a power_off on this port accepted and recorded at [t], the
      status is "status: stopped" when [t] is greater than the power_on
      timestamp and "status: running" otherwise, whether the device call
      succeeded, failed or is still queued.
    - After a power_on recorded at [t], the status is "status: stopped"
      only when the power_off timestamp is greater than [t]. *)
Theorem status_follows_requests (W W' : World) (p q : Z) (s : state) :
  let status_of := fun u : state =>
    dict_get "status" (fst (get_port_status W' p u)) in
  status_of (snd (dispatch W PowerCycle q s)) = status_of s
  /\ (q <> p -> forall op, status_of (snd (dispatch W op q s)) = status_of s)
  /\ (rejected (fst (dispatch W PowerOff p s)) ->
      status_of (snd (dispatch W PowerOff p s)) = status_of s)
  /\ (~ rejected (fst (dispatch W PowerOff p s)) ->
      status_of (snd (dispatch W PowerOff p s)) =
      Some (VStr (if Qlt_le_dec (recorded s p PowerOn)
                       (clock W (time_reads (checked W "power_off" p s)))
                  then "status: stopped" else "status: running")))
  /\ status_of (snd (dispatch W PowerOn p s)) =
     Some (VStr (if Qlt_le_dec (clock W (time_reads s)) (recorded s p PowerOff)
                 then "status: stopped" else "status: running")).
Proof.
  cbv zeta.
  assert (Hsame : forall u : state,
            recorded u p PowerOn = recorded s p PowerOn ->
            recorded u p PowerOff = recorded s p PowerOff ->
            dict_get "status" (fst (get_port_status W' p u))
            = dict_get "status" (fst (get_port_status W' p s))).
  { intros u H1 H2. rewrite !status_text, H1, H2. reflexivity. }
  assert (Hreq : forall (op : operation) (r : Z) (op' : operation),
            op <> PowerOn ->
            recorded (snd (dispatch W op r s)) p op' =
            if limited W (op_name op) r s then recorded s p op'
            else if decide (r = p /\ op_name op = op_name op')
                 then clock W (time_reads (checked W (op_name op) r s))
                 else recorded s p op').
  { intros op r op' Hop. rewrite (dispatch_request W op r Hop).
    pose proof (request_records W (op_name op) r s) as Hrec.
    destruct (limited W (op_name op) r s).
    - unfold recorded. rewrite Hrec. reflexivity.
    - apply recorded_after_store. exact Hrec. }
  assert (Hon : forall (r : Z) (op' : operation),
            recorded (snd (dispatch W PowerOn r s)) p op' =
            if decide (r = p /\ "power_on" = op_name op')
            then clock W (time_reads s) else recorded s p op').
  { intros r op'. apply recorded_after_store. reflexivity. }
  split; [|split; [|split; [|split]]].
  - apply Hsame; rewrite Hreq by discriminate;
      destruct (limited W _ q s); try reflexivity; same_key.
  - intros Hne op. apply Hsame;
      (destruct op; [rewrite Hon | rewrite Hreq by discriminate ..]);
      try destruct (limited W _ q s); try reflexivity; same_key.
  - intros Hrej.
    rewrite (dispatch_request W PowerOff p) in Hrej by discriminate.
    apply rejected_iff_limited in Hrej. simpl in Hrej.
    apply Hsame; rewrite Hreq by discriminate; simpl; rewrite Hrej; reflexivity.
  - intros Hacc.
    rewrite (dispatch_request W PowerOff p) in Hacc by discriminate.
    rewrite rejected_iff_limited in Hacc. apply not_true_is_false in Hacc.
    simpl in Hacc.
    rewrite status_text, !Hreq by discriminate. simpl. rewrite Hacc.
    do 2 same_key.
  - rewrite status_text, !Hon. do 2 same_key.
Qed.

(** * The HTTP front end *)

(** ** Authentication *)

Lemma replace_from_absent (old new s : string) :
  occurs old s = false -> replace_from old new s 0 = s.
Proof.
  induction s as [| c s IH]; intros Hocc; [reflexivity|].
  cbn [occurs] in Hocc. apply orb_false_iff in Hocc as [Hpre Hrest].
  cbn [replace_from]. rewrite Hpre, (IH Hrest). reflexivity.
Qed.

Lemma str_replace_bearer_absent (s : string) :
  occurs "Bearer " s = false -> str_replace "Bearer " "" s = s.
Proof. apply replace_from_absent. Qed.

Lemma str_replace_bearer_prefix (s : string) :
  str_replace "Bearer " "" ("Bearer " +:+ s) = str_replace "Bearer " "" s.
Proof. destruct s; reflexivity. Qed.

(** X8. Where the token is looked for.  With a token [T] configured (the
    environment variable unless it is unset or empty, else the config
    file):
    - a header whose text after removal of every "Bearer " is not empty
      decides alone: the query and form tokens are not looked at, so a wrong
      header refuses a request whose query token is right;
    - the header "Bearer T", and the header "T" itself, are accepted when
      [T] has no "Bearer " in it;
    - with no header (or one that is empty after the removal) a query token
      that is not empty decides alone, and with neither the form token
      decides; with none of the three the request is refused. *)
Theorem authenticate_request_order (cfg : Settings) (req : Request)
    (T : string)
    (Htoken : py_or (getenv_auth_token cfg) (config_auth_token cfg) = Some T)
    (Hfull : T <> "") :
  let header := str_replace "Bearer " "" (default "" (authorization req)) in
  (header <> "" -> authenticate_request cfg req = String.eqb header T)
  /\ (occurs "Bearer " T = false ->
      authorization req = Some ("Bearer " +:+ T) \/ authorization req = Some T ->
      authenticate_request cfg req = true)
  /\ (header = "" ->
      forall a : string, args_token req = Some a -> a <> "" ->
      authenticate_request cfg req = String.eqb a T)
  /\ (header = "" -> default "" (args_token req) = "" ->
      authenticate_request cfg req = String.eqb (default "" (form_token req)) T)
  /\ (authorization req = None -> args_token req = None ->
      form_token req = None -> authenticate_request cfg req = false).
Proof.
  cbv zeta.
  assert (Hnot : py_not (Some T) = false).
  { simpl. apply String.eqb_neq. exact Hfull. }
  assert (Hrun : authenticate_request cfg req =
    let header := str_replace "Bearer " "" (default "" (authorization req)) in
    let provided := if String.eqb header "" then default "" (args_token req)
                    else header in
    let provided := if String.eqb provided "" then default "" (form_token req)
                    else provided in
    String.eqb provided T).
  { unfold authenticate_request. rewrite Htoken, Hnot. reflexivity. }
  assert (Hheader : forall h : string, h <> "" ->
            str_replace "Bearer " "" (default "" (authorization req)) = h ->
            authenticate_request cfg req = String.eqb h T).
  { intros h Hh Heq. rewrite Hrun. cbv zeta. rewrite Heq.
    apply String.eqb_neq in Hh. rewrite Hh, Hh. reflexivity. }
  split; [|split; [|split; [|split]]].
  - intros Hh. apply Hheader; [exact Hh | reflexivity].
  - intros Hocc Hauth.
    rewrite (Hheader T Hfull); [apply String.eqb_refl|].
    destruct Hauth as [-> | ->]; simpl default.
    + rewrite str_replace_bearer_prefix. apply str_replace_bearer_absent, Hocc.
    + apply str_replace_bearer_absent, Hocc.
  - intros Hh a Ha Hne. rewrite Hrun. cbv zeta. rewrite Hh, Ha. simpl.
    apply String.eqb_neq in Hne. rewrite Hne. reflexivity.
  - intros Hh Ha. rewrite Hrun. cbv zeta. rewrite Hh, Ha. reflexivity.
  - intros H1 H2 H3. rewrite Hrun, H1, H2, H3. simpl.
    destruct T; [contradiction | reflexivity].
Qed.

(** X8 at work: the header "Bearer s3cret" opens the door. *)
Lemma authenticate_request_order_witness :
  py_or (getenv_auth_token token_settings) (config_auth_token token_settings)
  = Some "s3cret"
  /\ "s3cret" <> ""
  /\ authenticate_request token_settings (header_request "Bearer s3cret") = true.
Proof.
  assert (H1 : py_or (getenv_auth_token token_settings)
                 (config_auth_token token_settings) = Some "s3cret")
    by reflexivity.
  assert (H2 : "s3cret" <> "") by discriminate.
  split; [exact H1|]. split; [exact H2|].
  apply (proj1 (proj2 (authenticate_request_order token_settings
                         (header_request "Bearer s3cret") "s3cret" H1 H2))).
  - vm_compute. reflexivity.
  - left. reflexivity.
Defined.

(** ** The views *)

(** The response a power view builds from the result of the controller. *)
Lemma power_view_run (W : World) (cfg : Settings) (R : Rendering)
    (op : operation) (port : Z) (s : state) :
  config_ports cfg !! pretty port <> None ->
  exists msg : string,
    view_of W cfg R (route_of op) port s =
    (let result := fst (dispatch W op port s) in
     if negb (subscript_true result "success") && get_true result "rate_limited"
     then {| status_code := 429; resp_body := Json result;
             resp_headers :=
               [("Retry-After",
                 py_str R (default (VInt 30) (dict_get "retry_after" result)))] |}
     else {| status_code := if subscript_true result "success" then 200 else 500;
             resp_body := Json result; resp_headers := [] |},
     add_event (EvLog INFO msg) (snd (dispatch W op port s))).
Proof.
  intros Hconf.
  assert (Hnc : not_configured cfg port = false).
  { unfold not_configured. destruct (config_ports cfg !! pretty port);
      [reflexivity | contradiction]. }
  destruct op; cbn [view_of route_of dispatch];
    unfold power_on, power_off, power_cycle, bind, emit, modify, ret;
    rewrite Hnc;
    [destruct (power_on_port W port s) | destruct (power_off_port W port s)
     | destruct (power_cycle_port W port s)];
    eexists; reflexivity.
Qed.

(** The fields of a result the views read. *)
Lemma result_fields (W : World) (op : operation) (p : Z) (s : state) :
  let r := fst (dispatch W op p s) in
  (rejected r
   /\ subscript_true r "success" = false /\ get_true r "rate_limited" = true
   /\ exists n : Z, dict_get "retry_after" r = Some (VInt n))
  \/ (~ rejected r
      /\ get_true r "rate_limited" = false
      /\ exists b : bool,
           dict_get "success" r = Some (VBool b)
           /\ subscript_true r "success" = b
           /\ (op = PowerOn -> b = true)).
Proof.
  cbv zeta.
  assert (Hcases : op = PowerOn \/ op <> PowerOn)
    by (destruct op; [left; reflexivity | right; discriminate ..]).
  destruct Hcases as [-> | Hop].
  - right. split; [intros [H _]; discriminate H|].
    split; [reflexivity|]. exists true. repeat split.
  - rewrite (dispatch_request W op p Hop).
    destruct (limited W (op_name op) p s) eqn:Hl.
    + left. split; [apply rejected_iff_limited; exact Hl|].
      rewrite (power_request_limited W _ p s Hl), run_rate_limit_response.
      cbn [fst]. repeat split. eexists. reflexivity.
    + right.
      split; [rewrite rejected_iff_limited, Hl; discriminate|].
      destruct (immediate W (op_name op) p s) eqn:Hi.
      * rewrite (power_request_immediate W _ p s Hl Hi). cbn [fst].
        destruct (http W _) as [e | c]; simpl;
          [| destruct (Z.eqb c 200); simpl];
          (split; [reflexivity|]); eexists; repeat split; intros; done.
      * rewrite (power_request_queued W _ p s Hl Hi). cbn [fst].
        split; [reflexivity|]. exists true. repeat split; intros; done.
Qed.

(** X9. The status code of a power view, for a configured port.  The body
    is the controller's result as JSON.  The code is 429 exactly when the
    result is a rate-limit rejection, and then the one header Retry-After
    carries the result's retry_after in decimal; it is 200 exactly when the
    result says success, with no header; otherwise (a device call that
    failed) it is 500.  The power_on view always answers 200.  Besides what
    the controller does, the view writes one INFO log line. *)
Theorem power_view_status_code (W : World) (cfg : Settings) (R : Rendering)
    (op : operation) (port : Z) (s : state)
    (Hconf : config_ports cfg !! pretty port <> None) :
  let result := fst (dispatch W op port s) in
  let resp := fst (view_of W cfg R (route_of op) port s) in
  resp_body resp = Json result
  /\ (status_code resp = 429%Z <-> rejected result)
  /\ (status_code resp = 200%Z <-> dict_get "success" result = Some (VBool true))
  /\ (status_code resp = 500%Z <->
      ~ rejected result /\ dict_get "success" result = Some (VBool false))
  /\ (rejected result ->
      exists n : Z, dict_get "retry_after" result = Some (VInt n)
                    /\ resp_headers resp = [("Retry-After", pretty n)])
  /\ (~ rejected result -> resp_headers resp = [])
  /\ (op = PowerOn -> status_code resp = 200%Z)
  /\ exists msg : string,
       snd (view_of W cfg R (route_of op) port s) =
       add_event (EvLog INFO msg) (snd (dispatch W op port s)).
Proof.
  cbv zeta.
  destruct (power_view_run W cfg R op port s Hconf) as [msg Hrun].
  rewrite Hrun. cbn [fst snd].
  destruct (result_fields W op port s)
    as [(Hrej & Hs & Hr & n & Hn) | (Hacc & Hr & b & Hb & Hs & Hon)];
    rewrite Hs, Hr.
  - simpl. rewrite Hn. simpl.
    destruct Hrej as [Hsf Hrl].
    split; [reflexivity|]. split; [split; [intros _; split; assumption | reflexivity]|].
    split; [split; [discriminate | rewrite Hsf; discriminate]|].
    split; [split; [discriminate | intros [Hc _]; exfalso; apply Hc; split; assumption]|].
    split; [intros _; exists n; split; reflexivity|].
    split; [intros Hc; exfalso; apply Hc; split; assumption|].
    split; [|exists msg; reflexivity].
    intros ->. destruct Hsf. discriminate.
  - rewrite andb_false_r. rewrite Hb. cbn [status_code resp_body resp_headers].
    assert (Hmsg : exists m : string,
              add_event (EvLog INFO msg) (snd (dispatch W op port s))
              = add_event (EvLog INFO m) (snd (dispatch W op port s)))
      by (exists msg; reflexivity).
    destruct b;
      (split; [reflexivity|]);
      (split; [split; [discriminate | intros H; contradiction]|]);
      (split; [split; first [reflexivity | discriminate | intros _; reflexivity]|]);
      (split; [split; [first [discriminate | intros _; split; [exact Hacc | reflexivity]]
                      | first [intros [_ H]; discriminate H | intros _; reflexivity]]|]);
      (split; [intros H; contradiction|]);
      (split; [reflexivity|]);
      (split; [|exact Hmsg]);
      intros Hop; first [reflexivity | specialize (Hon Hop); discriminate Hon].
Qed.

(** X9 at work: port 3 is configured, power_off was recorded at 100 and is
    asked again at 105: HTTP 429. *)
Lemma power_view_status_code_witness :
  config_ports token_settings !! pretty 3%Z <> None
  /\ status_code
       (fst (view_of (world_of [105; 105]%Q []) token_settings plain_rendering
               (route_of PowerOff) 3 off_recorded)) = 429%Z.
Proof.
  assert (H : config_ports token_settings !! pretty 3%Z <> None)
    by (vm_compute; discriminate).
  split; [exact H|].
  apply (proj1 (proj2 (power_view_status_code
                         (world_of [105; 105]%Q []) token_settings
                         plain_rendering PowerOff 3 off_recorded H))).
  split; vm_compute; reflexivity.
Defined.

(** The status view on a configured port. *)
Lemma power_status_run (W : World) (cfg : Settings) (R : Rendering)
    (port : Z) (s : state) :
  config_ports cfg !! pretty port <> None ->
  exists msg : string,
    power_status W cfg R port s =
    ({| status_code := 200;
        resp_body :=
          Text (if Qlt_le_dec (recorded s port PowerOn) (recorded s port PowerOff)
                then "status: stopped" else "status: running");
        resp_headers := [] |},
     add_event (EvLog INFO msg) (tick_datetime s)).
Proof.
  intros Hconf.
  assert (Hnc : not_configured cfg port = false).
  { unfold not_configured. destruct (config_ports cfg !! pretty port);
      [reflexivity | contradiction]. }
  unfold power_status. rewrite Hnc.
  unfold get_port_status, bind, get_state, emit, modify, ret,
    datetime_now_isoformat, recorded, _get_operation_key.
  cbn [fst snd op_name].
  destruct (Qlt_le_dec _ _); eexists; reflexivity.
Qed.

(** X10. The status view.  For a configured port the answer is HTTP 200 with
    a plain-text body that is exactly "status: stopped" or "status:
    running" (never JSON), decided by the two recorded timestamps; the view
    sends nothing to the device and changes no record: it reads the time
    once for the result's timestamp and writes one INFO log line. *)
Theorem power_status_plain_text (W : World) (cfg : Settings) (R : Rendering)
    (port : Z) (s : state)
    (Hconf : config_ports cfg !! pretty port <> None) :
  let resp := fst (power_status W cfg R port s) in
  let s' := snd (power_status W cfg R port s) in
  status_code resp = 200%Z
  /\ resp_headers resp = []
  /\ (resp_body resp = Text "status: stopped"
      \/ resp_body resp = Text "status: running")
  /\ (resp_body resp = Text "status: stopped"
      <-> (recorded s port PowerOn < recorded s port PowerOff)%Q)
  /\ last_operation_time s' = last_operation_time s
  /\ last_unifi_operation s' = last_unifi_operation s
  /\ operation_queue s' = operation_queue s
  /\ http_calls s' = http_calls s
  /\ posts (trace s') = posts (trace s).
Proof.
  cbv zeta. destruct (power_status_run W cfg R port s Hconf) as [msg ->].
  cbn [fst snd status_code resp_headers resp_body].
  split; [reflexivity|]. split; [reflexivity|].
  split; [destruct (Qlt_le_dec _ _); auto|].
  split.
  - destruct (Qlt_le_dec _ _) as [Hlt | Hle]; split.
    + intros _. exact Hlt.
    + reflexivity.
    + discriminate.
    + intros Hlt. exfalso. apply (Qlt_not_le _ _ Hlt Hle).
  - simpl. rewrite posts_app. simpl. rewrite app_nil_r. repeat split.
Qed.

(** X10 at work: port 3 with a power_off recorded at 100. *)
Lemma power_status_plain_text_witness :
  config_ports token_settings !! pretty 3%Z <> None
  /\ resp_body (fst (power_status (steady_world 200) token_settings
                       plain_rendering 3 off_recorded))
     = Text "status: stopped".
Proof.
  assert (H : config_ports token_settings !! pretty 3%Z <> None)
    by (vm_compute; discriminate).
  split; [exact H|].
  apply (proj1 (proj2 (proj2 (proj2 (power_status_plain_text
                  (steady_world 200) token_settings plain_rendering
                  3 off_recorded H))))).
  vm_compute. reflexivity.
Defined.

(** X11. Requests that are turned away.  Through [before_request] and any
    of the four views:
    - a request that does not authenticate is answered 401, and a request
      that authenticates for a port that is not in the configuration is
      answered 400; in both cases the controller state is exactly as before
      (nothing recorded, nothing sent, nothing queued, nothing logged);
    - 401 is answered only when authentication fails and 400 only for a
      port that is not configured;
    - when no token is configured (none in the environment or an empty one,
      and none or an empty one in the config file) no request is answered
      401. *)
Theorem refused_request_changes_nothing (W : World) (cfg : Settings)
    (R : Rendering) (r : route) (port : Z) (req : Request) (s : state) :
  let out := serve cfg (view_of W cfg R r port) req s in
  (authenticate_request cfg req = false ->
   status_code (fst out) = 401%Z /\ snd out = s)
  /\ (authenticate_request cfg req = true ->
      config_ports cfg !! pretty port = None ->
      status_code (fst out) = 400%Z /\ snd out = s)
  /\ (status_code (fst out) = 401%Z -> authenticate_request cfg req = false)
  /\ (status_code (fst out) = 400%Z ->
      authenticate_request cfg req = true
      /\ config_ports cfg !! pretty port = None)
  /\ (py_not (py_or (getenv_auth_token cfg) (config_auth_token cfg)) = true ->
      status_code (fst out) <> 401%Z).
Proof.
  cbv zeta.
  assert (Hview : authenticate_request cfg req = true ->
                  serve cfg (view_of W cfg R r port) req s
                  = view_of W cfg R r port s).
  { intros Ha. unfold serve, before_request. rewrite Ha. reflexivity. }
  assert (Hnc : config_ports cfg !! pretty port = None ->
                view_of W cfg R r port s = (not_configured_response port, s)).
  { intros Hn. destruct r; simpl;
      unfold power_on, power_off, power_cycle, power_status, not_configured;
      rewrite Hn; reflexivity. }
  assert (Hcodes : config_ports cfg !! pretty port <> None ->
                   status_code (fst (view_of W cfg R r port s)) <> 401%Z
                   /\ status_code (fst (view_of W cfg R r port s)) <> 400%Z).
  { intros Hc.
    assert (Hpow : forall op : operation,
              status_code (fst (view_of W cfg R (route_of op) port s)) <> 401%Z
              /\ status_code (fst (view_of W cfg R (route_of op) port s)) <> 400%Z).
    { intros op. destruct (power_view_run W cfg R op port s Hc) as [msg ->].
      cbn [fst].
      destruct (negb _ && _); [split; discriminate|].
      destruct (subscript_true _ _); split; discriminate. }
    destruct r;
      [exact (Hpow PowerOn) | exact (Hpow PowerOff) | exact (Hpow PowerCycle) |].
    simpl. destruct (power_status_run W cfg R port s Hc) as [msg ->].
    split; discriminate. }
  assert (Hrefused : authenticate_request cfg req = false ->
                     serve cfg (view_of W cfg R r port) req s
                     = ({| status_code := 401;
                           resp_body :=
                             Json [("error",
                                    VStr "Invalid or missing authentication token")];
                           resp_headers := [] |}, s)).
  { intros Ha. unfold serve, before_request. rewrite Ha. reflexivity. }
  split; [intros Ha; rewrite (Hrefused Ha); split; reflexivity|].
  split; [intros Ha Hn; rewrite (Hview Ha), (Hnc Hn); split; reflexivity|].
  split; [|split].
  - intros Hcode. destruct (authenticate_request cfg req) eqn:Ha; [|reflexivity].
    exfalso. rewrite (Hview eq_refl) in Hcode.
    destruct (config_ports cfg !! pretty port) as [d|] eqn:Hp.
    + apply (proj1 (Hcodes ltac:(discriminate))). exact Hcode.
    + rewrite (Hnc eq_refl) in Hcode. discriminate Hcode.
  - intros Hcode. destruct (authenticate_request cfg req) eqn:Ha.
    + split; [reflexivity|]. rewrite (Hview eq_refl) in Hcode.
      destruct (config_ports cfg !! pretty port) as [d|] eqn:Hp; [|reflexivity].
      exfalso. apply (proj2 (Hcodes ltac:(discriminate))). exact Hcode.
    + rewrite (Hrefused eq_refl) in Hcode. discriminate Hcode.
  - intros Hopen Hcode.
    assert (Ha : authenticate_request cfg req = true).
    { unfold authenticate_request. rewrite Hopen. reflexivity. }
    rewrite (Hview Ha) in Hcode.
    destruct (config_ports cfg !! pretty port) as [d|] eqn:Hp.
    + apply (proj1 (Hcodes ltac:(discriminate))). exact Hcode.
    + rewrite (Hnc eq_refl) in Hcode. discriminate Hcode.
Qed.

(** * The cooldown across requests *)

(** The device-activity map after a request that went to the device at
    once. *)
Lemma immediate_device_activity (W : World) (a : string) (p : Z) (s : state) :
  limited W a p s = false -> immediate W a p s = true ->
  last_unifi_operation (snd (power_request W a p s)) =
  if call_ok (http W (http_calls s))
  then <[p := clock W (time_reads (gated W a p s))]> (last_unifi_operation s)
  else last_unifi_operation s.
Proof.
  intros Hl Hi.
  destruct (gated_frame W a p s) as (_ & Hh & _ & _ & _ & Hu & _).
  rewrite (power_request_immediate W a p s Hl Hi). cbn [snd]. rewrite Hh.
  destruct (call_ok (http W (http_calls s))); simpl; rewrite Hu; reflexivity.
Qed.

(** X12. The cooldown counts from the last device call that succeeded, for
    the port and across the two operations.  Take a power_off / power_cycle
    request that went to the device at once.
    - If the call succeeded, the device-activity time of the port is the
      clock value [t] read after the call, and a following accepted
      power_off or power_cycle on the port (the same operation or the other
      one) whose gate reads less than 10 seconds past [t] makes no HTTP call
      and is queued with delay max(0, 10 - (now - t)).
    - If the call failed, the device-activity map is as before: no cooldown
      starts, and on a port without earlier device activity a following
      accepted request goes to the device at once again. *)
Theorem cooldown_counts_from_device_success
    (W : World) (op op' : operation) (p : Z) (s : state)
    (Hop : op <> PowerOn) (Hop' : op' <> PowerOn)
    (Hacc : ~ rejected (fst (dispatch W op p s)))
    (Himm : immediate W (op_name op) p s = true) :
  let s1 := snd (dispatch W op p s) in
  let t := clock W (time_reads (gated W (op_name op) p s)) in
  let at_gate := clock W (time_reads (accepted W (op_name op') p s1)) in
  let at_delay := clock W (S (time_reads (accepted W (op_name op') p s1))) in
  (call_ok (http W (http_calls s)) = true ->
   last_unifi_operation s1 !! p = Some t
   /\ (~ rejected (fst (dispatch W op' p s1)) ->
       (at_gate - t < 10)%Q ->
       dict_get "status" (fst (dispatch W op' p s1)) = Some (VStr "queued")
       /\ http_calls (snd (dispatch W op' p s1)) = http_calls s1
       /\ operation_queue (snd (dispatch W op' p s1)) =
            (operation_queue s1
             ++ [Some {| job_port := p; job_action := op_name op';
                         job_delay := Qmax 0 (10 - (at_delay - t)) |}])%list))
  /\ (call_ok (http W (http_calls s)) = false ->
      last_unifi_operation s1 = last_unifi_operation s
      /\ (last_unifi_operation s !! p = None ->
          ~ rejected (fst (dispatch W op' p s1)) ->
          http_calls (snd (dispatch W op' p s1)) = S (http_calls s1))).
Proof.
  cbv zeta. revert Hacc.
  rewrite !(dispatch_request W op p Hop), !(dispatch_request W op' p Hop').
  rewrite !rejected_iff_limited. intros Hacc.
  apply not_true_is_false in Hacc.
  pose proof (immediate_device_activity W _ p s Hacc Himm) as Hdev.
  set (s1 := snd (power_request W (op_name op) p s)) in *.
  split; intros Hok; rewrite Hok in Hdev.
  - assert (Hlast : last_unifi_operation s1 !! p
                    = Some (clock W (time_reads (gated W (op_name op) p s)))).
    { rewrite Hdev. apply lookup_insert_eq. }
    split; [exact Hlast|].
    intros Hacc' Hlt. apply not_true_is_false in Hacc'.
    assert (Hdef : immediate W (op_name op') p s1 = false).
    { apply deferred_iff. eexists. split; [exact Hlast | exact Hlt]. }
    destruct (gated_frame W (op_name op') p s1) as (_ & Hh & _ & Hq & _ & _ & _).
    rewrite (power_request_queued W _ p s1 Hacc' Hdef). cbn [fst snd].
    unfold queued_delay. rewrite Hlast.
    rewrite (deferred_gated W _ p s1 Hdef) in Hh, Hq |- *.
    simpl in Hh, Hq |- *. rewrite Hh, Hq. repeat split.
  - split; [exact Hdev|].
    intros Hnone Hacc'. apply not_true_is_false in Hacc'.
    assert (Hi' : immediate W (op_name op') p s1 = true).
    { apply immediate_iff. left. rewrite Hdev. exact Hnone. }
    destruct (gated_frame W (op_name op') p s1) as (_ & Hh & _).
    rewrite (power_request_immediate W _ p s1 Hacc' Hi'). cbn [snd].
    destruct (call_ok (http W (http_calls (gated W (op_name op') p s1))));
      simpl; rewrite Hh; reflexivity.
Qed.

(** X12 at work: power_cycle on port 3 is sent at 0 and succeeds; power_off
    on port 3 at 2 is queued for 8 seconds. *)
Lemma cooldown_counts_from_device_success_witness :
  PowerCycle <> PowerOn /\ PowerOff <> PowerOn
  /\ ~ rejected (fst (dispatch (world_of [0; 0; 2; 2; 2]%Q []) PowerCycle 3 init))
  /\ immediate (world_of [0; 0; 2; 2; 2]%Q []) (op_name PowerCycle) 3 init = true
  /\ last_unifi_operation
       (snd (dispatch (world_of [0; 0; 2; 2; 2]%Q []) PowerCycle 3 init)) !! 3%Z
     = Some 0%Q.
Proof.
  assert (H1 : PowerCycle <> PowerOn) by discriminate.
  assert (H2 : PowerOff <> PowerOn) by discriminate.
  assert (H3 : ~ rejected (fst (dispatch (world_of [0; 0; 2; 2; 2]%Q [])
                                  PowerCycle 3 init))).
  { intros [H _]. vm_compute in H. discriminate H. }
  assert (H4 : immediate (world_of [0; 0; 2; 2; 2]%Q []) (op_name PowerCycle)
                 3 init = true) by (vm_compute; reflexivity).
  split; [exact H1|]. split; [exact H2|]. split; [exact H3|].
  split; [exact H4|].
  refine (proj1 (proj1 (cooldown_counts_from_device_success
                          (world_of [0; 0; 2; 2; 2]%Q []) PowerCycle PowerOff
                          3 init H1 H2 H3 H4) _)).
  vm_compute. reflexivity.
Defined.
